(** * UMenu: taste parsing, preference filtering and relevance scoring

    A shallow embedding of the decision logic of the UMenu backend:
    - [parseWithKeywords], [parseTasteQuery] and [scoreMealAgainstTaste]
      of taste-parser.js,
    - [filterItemsByPreferences] of the MealMe service,
    - [calculateRestaurantMatchScore] of updated-server.js,
    followed by the properties the specification states about them. *)

From Stdlib Require Import List Bool Arith NArith ZArith QArith Qround Qminmax Lia.
From Stdlib Require Import Permutation Sorted.
From Stdlib Require Import Ascii String.
Import ListNotations.

(** ** JavaScript strings and the built-ins the code calls

    A JavaScript string is a sequence of UTF-16 code units.  The methods
    below are the ones the source uses: [includes], [trim], [join],
    [split] on the regular expression [/\s+/], and [Array.prototype.includes]
    on arrays of strings. *)

Module JS.

Definition jsstring := list N.

(** A source literal made of ASCII characters. *)
Definition lit (s : string) : jsstring :=
  List.map N_of_ascii (list_ascii_of_string s).

(** [===] on two strings. *)
Fixpoint str_eqb (a b : jsstring) : bool :=
  match a, b with
  | [], [] => true
  | x :: a', y :: b' => N.eqb x y && str_eqb a' b'
  | _, _ => false
  end.

(** [s.startsWith(t)]; the first argument is the searched prefix. *)
Fixpoint startsWith (t s : jsstring) : bool :=
  match t, s with
  | [], _ => true
  | x :: t', y :: s' => N.eqb x y && startsWith t' s'
  | _ :: _, [] => false
  end.

(** [s.includes(t)]: [t] occurs in [s] at some position. *)
Fixpoint includes (s t : jsstring) : bool :=
  startsWith t s ||
  match s with
  | [] => false
  | _ :: s' => includes s' t
  end.

(** [arr.includes(x)] on an array of strings. *)
Definition arr_includes (arr : list jsstring) (x : jsstring) : bool :=
  existsb (str_eqb x) arr.

(** [arr.join(sep)]. *)
Fixpoint join (sep : jsstring) (arr : list jsstring) : jsstring :=
  match arr with
  | [] => []
  | [x] => x
  | x :: rest => x ++ sep ++ join sep rest
  end.

(** The code units matched by [\s] and stripped by [trim]: the WhiteSpace
    and LineTerminator productions of ECMAScript. *)
Definition is_space (c : N) : bool :=
  ((9 <=? c) && (c <=? 13) || (c =? 32) || (c =? 160) || (c =? 5760)
   || (8192 <=? c) && (c <=? 8202) || (c =? 8232) || (c =? 8233)
   || (c =? 8239) || (c =? 8287) || (c =? 12288) || (c =? 65279))%N.

Fixpoint trimStart (s : jsstring) : jsstring :=
  match s with
  | [] => []
  | c :: s' => if is_space c then trimStart s' else s
  end.

(** [s.trim()]. *)
Definition trim (s : jsstring) : jsstring :=
  rev (trimStart (rev (trimStart s))).

(** [s.split(/\s+/)]: the pieces between maximal runs of white space.  A
    run at the very start or the very end leaves an empty piece there, and
    the empty string splits into one empty piece. *)
Fixpoint split_ws (s : jsstring) : list jsstring :=
  match s with
  | [] => [[]]
  | c :: s' =>
      if is_space c then
        match s' with
        | c' :: _ => if is_space c' then split_ws s' else [] :: split_ws s'
        | [] => [] :: split_ws s'
        end
      else
        match split_ws s' with
        | tok :: rest => (c :: tok) :: rest
        | [] => [[c]]
        end
  end.

(** [arr.flat()] on an array of arrays. *)
Definition flat {A : Type} (arr : list (list A)) : list A := List.concat arr.

(** [Object.entries] and [Object.values] of an object literal whose keys
    are not integer-like: the properties in the order they are written. *)
Definition entries {A : Type} (o : list (jsstring * A)) : list (jsstring * A) := o.
Definition values {A : Type} (o : list (jsstring * A)) : list A := List.map snd o.

(** [Math.round] on an exact rational: the closest integer, a tie going
    up. *)
Definition round (x : Q) : Z := Qfloor (x + (1 # 2)).

(** [String.prototype.toLowerCase] restricted to what it does on code
    units below 128; used for the concrete scenarios, whose strings are
    all ASCII. *)
Definition toLowerCase_ascii (s : jsstring) : jsstring :=
  List.map (fun c => if ((65 <=? c) && (c <=? 90))%N then (c + 32)%N else c) s.

End JS.

Import JS.

(** ** Data model *)

(** The fields of a menu item that the filter and the scorer read.  A
    field is [None] when the object does not have it. *)
Record MenuItem := {
  name : option jsstring;
  description : option jsstring;
  ingredients : option (list jsstring);
  allergens : option (list jsstring);
  dietary_labels : option (list jsstring);
  available : option bool
}.

(** The result of parsing a taste query. *)
Record TasteAttributes := {
  cuisines : list jsstring;
  heat : jsstring;
  dietary : list jsstring;
  healthGoals : list jsstring;
  foodTypes : list jsstring;
  prepMethods : list jsstring;
  taste_ingredients : list jsstring;
  restrictions : list jsstring;
  confidence : Q
}.

(** The third argument of the scorer. *)
Record UserPreferences := {
  allergies : option (list jsstring);
  dietaryRestrictions : option (list jsstring)
}.

(** A meal after scoring, as built by the search endpoint. *)
Record ScoredMenuItem := {
  meal : MenuItem;
  score : Z;
  matchReasons : list jsstring
}.

(** The fields of a restaurant that the aggregation reads. *)
Record Restaurant := {
  restaurant_name : jsstring;
  dietaryOptions : option (list jsstring);
  rating : option Q
}.

(** [x || []] *)
Definition or_empty {A : Type} (x : option (list A)) : list A :=
  match x with Some l => l | None => [] end.

(** [x = ''] as a destructuring default. *)
Definition or_empty_string (x : option jsstring) : jsstring :=
  match x with Some s => s | None => [] end.

(** ** The operations, parametric in [String.prototype.toLowerCase] *)

Section Operations.

Variable toLowerCase : jsstring -> jsstring.

(** *** Preference filter (MealMeService.filterItemsByPreferences) *)

(** The callback of [dietaryRestrictions.every]. *)
Definition meetsRestriction (itemLabels : list jsstring) (restriction : jsstring) : bool :=
  let restrictionLower := toLowerCase restriction in
  if arr_includes itemLabels restrictionLower then true
  else if str_eqb restrictionLower (lit "vegetarian") && arr_includes itemLabels (lit "vegan")
  then true
  else if str_eqb restrictionLower (lit "pescetarian")
          && (arr_includes itemLabels (lit "vegan")
              || arr_includes itemLabels (lit "vegetarian"))
  then true
  else false.

(** The callback of [items.filter]. *)
Definition keepItem (allergens_ dietaryRestrictions_ : list jsstring) (item : MenuItem) : bool :=
  let hasAllergen :=
    if (0 <? List.length allergens_)%nat then
      let itemAllergens := List.map toLowerCase (or_empty (allergens item)) in
      existsb (fun a => arr_includes itemAllergens (toLowerCase a)) allergens_
    else false in
  if hasAllergen then false
  else
    let meetsAllRestrictions :=
      if (0 <? List.length dietaryRestrictions_)%nat then
        let itemLabels := List.map toLowerCase (or_empty (dietary_labels item)) in
        forallb (meetsRestriction itemLabels) dietaryRestrictions_
      else true in
    if negb meetsAllRestrictions then false
    else
      match available item with
      | Some false => false
      | _ => true
      end.

Definition filterItemsByPreferences
    (items : list MenuItem) (allergens_ dietaryRestrictions_ : list jsstring) : list MenuItem :=
  List.filter (keepItem allergens_ dietaryRestrictions_) items.

(** *** Attribute taxonomy (taste-parser.js)

    Each table is an object literal; [Object.entries] walks it in the
    order written, which matters for the heat level. *)

Definition KeywordTable := list (jsstring * list jsstring).

Definition CUISINE_KEYWORDS : KeywordTable :=
  [ (lit "italian", [lit "pizza"; lit "pasta"; lit "risotto"; lit "gelato"; lit "italian"]);
    (lit "mexican", [lit "tacos"; lit "burrito"; lit "enchilada"; lit "mexican"; lit "salsa";
                     lit "quesadilla"]);
    (lit "asian", [lit "noodle"; lit "ramen"; lit "pho"; lit "pad thai"; lit "curry";
                   lit "stir fry"; lit "sushi"; lit "asian"]);
    (lit "indian", [lit "curry"; lit "tikka"; lit "naan"; lit "biryani"; lit "indian"; lit "dosa"]);
    (lit "japanese", [lit "sushi"; lit "ramen"; lit "tempura"; lit "teriyaki"; lit "japanese"]);
    (lit "thai", [lit "pad thai"; lit "thai"; lit "curry"; lit "coconut"; lit "lemongrass"]);
    (lit "american", [lit "burger"; lit "bbq"; lit "fried"; lit "steak"; lit "wings";
                      lit "american"]);
    (lit "mediterranean", [lit "greek"; lit "falafel"; lit "hummus"; lit "olive";
                           lit "mediterranean"]);
    (lit "french", [lit "french"; lit "coq au vin"; lit "duck"; lit "bourguignon"]) ].

(** The fourth trigger of [spicy] is written with U+00F1 in the source. *)
Definition HEAT_KEYWORDS : KeywordTable :=
  [ (lit "spicy", [lit "spicy"; lit "hot"; lit "fiery"; lit "jalape" ++ [241%N] ++ lit "o";
                   lit "habanero"; lit "sriracha"; lit "chili"]);
    (lit "mild", [lit "mild"; lit "light"; lit "gentle"; lit "not spicy"; lit "family friendly"]);
    (lit "medium", [lit "medium"; lit "some heat"; lit "moderately spicy"]) ].

Definition DIETARY_KEYWORDS : KeywordTable :=
  [ (lit "vegan", [lit "vegan"; lit "no meat"; lit "no animal"; lit "plant based"]);
    (lit "vegetarian", [lit "vegetarian"; lit "no meat"; lit "meatless"]);
    (lit "pescetarian", [lit "pescetarian"; lit "fish ok"; lit "seafood ok"]);
    (lit "keto", [lit "keto"; lit "low carb"; lit "protein heavy"]);
    (lit "paleo", [lit "paleo"; lit "primal"]);
    (lit "glutenfree", [lit "gluten free"; lit "gluten-free"; lit "gf"; lit "celiac"]);
    (lit "halal", [lit "halal"]);
    (lit "kosher", [lit "kosher"]) ].

Definition HEALTH_GOALS_KEYWORDS : KeywordTable :=
  [ (lit "heart-healthy", [lit "heart healthy"; lit "low sodium"; lit "low fat"; lit "cardiac";
                           lit "healthy heart"]);
    (lit "low-sodium", [lit "low sodium"; lit "no salt"; lit "salt free"]);
    (lit "weight-loss", [lit "light"; lit "healthy"; lit "low calorie"; lit "diet";
                         lit "weight loss"]);
    (lit "muscle-building", [lit "protein"; lit "high protein"; lit "muscle"; lit "strength";
                             lit "bodybuilding"]);
    (lit "diabetes-friendly", [lit "diabetes"; lit "low sugar"; lit "no sugar"; lit "sugar free"]) ].

Definition FOOD_TYPE_KEYWORDS : KeywordTable :=
  [ (lit "tacos", [lit "tacos"; lit "taco"]);
    (lit "noodles", [lit "noodle"; lit "noodles"; lit "ramen"; lit "pho"; lit "pad thai"]);
    (lit "pizza", [lit "pizza"; lit "pie"]);
    (lit "burger", [lit "burger"; lit "burgers"; lit "beef"]);
    (lit "fish", [lit "fish"; lit "seafood"; lit "salmon"; lit "tuna"; lit "halibut"]);
    (lit "chicken", [lit "chicken"; lit "poultry"]);
    (lit "steak", [lit "steak"; lit "beef"; lit "meat"]);
    (lit "salad", [lit "salad"; lit "greens"; lit "vegetables"]);
    (lit "soup", [lit "soup"; lit "broth"; lit "chowder"]);
    (lit "sandwich", [lit "sandwich"; lit "sub"; lit "wrap"]) ].

Definition PREP_KEYWORDS : KeywordTable :=
  [ (lit "grilled", [lit "grilled"; lit "charred"]);
    (lit "fried", [lit "fried"; lit "deep fried"; lit "crispy"]);
    (lit "baked", [lit "baked"; lit "roasted"]);
    (lit "raw", [lit "raw"; lit "fresh"]);
    (lit "steamed", [lit "steamed"; lit "boiled"]) ].

(** *** Keyword parser (parseWithKeywords) *)

(** [keywords.some(kw => query.includes(kw))] *)
Definition someKeyword (query : jsstring) (keywords : list jsstring) : bool :=
  existsb (fun kw => includes query kw) keywords.

(** The loop that pushes every tag one of whose triggers occurs in the
    query; [field] is the array being filled. *)
Definition detectTags (table : KeywordTable) (query : jsstring) (field : list jsstring)
  : list jsstring :=
  fold_left
    (fun field entry =>
       let '(tag, keywords) := entry in
       if someKeyword query keywords then field ++ [tag] else field)
    (entries table) field.

(** The heat loop: the first level with a trigger in the query is
    assigned and the loop is left ([break]). *)
Fixpoint detectHeat (levels : KeywordTable) (query : jsstring) (heat_ : jsstring) : jsstring :=
  match levels with
  | [] => heat_
  | (level, keywords) :: rest =>
      if someKeyword query keywords then level else detectHeat rest query heat_
  end.

Definition allKeywords : list jsstring :=
  flat (values CUISINE_KEYWORDS
          ++ values HEAT_KEYWORDS
          ++ values DIETARY_KEYWORDS
          ++ values HEALTH_GOALS_KEYWORDS
          ++ values FOOD_TYPE_KEYWORDS
          ++ values PREP_KEYWORDS).

(** The callback of [words.filter]. *)
Definition isIngredient (w : jsstring) : bool :=
  (2 <? List.length w)%nat
  && negb (arr_includes allKeywords w)
  && negb (str_eqb w (lit "and"))
  && negb (str_eqb w (lit "with")).

Definition parseWithKeywords (tasteQuery : jsstring) : TasteAttributes :=
  let query := toLowerCase tasteQuery in
  let words := split_ws query in
  {| cuisines := detectTags CUISINE_KEYWORDS query [];
     heat := detectHeat (entries HEAT_KEYWORDS) query (lit "none");
     dietary := detectTags DIETARY_KEYWORDS query [];
     healthGoals := detectTags HEALTH_GOALS_KEYWORDS query [];
     foodTypes := detectTags FOOD_TYPE_KEYWORDS query [];
     prepMethods := detectTags PREP_KEYWORDS query [];
     taste_ingredients := List.filter isIngredient words;
     restrictions := [];
     confidence := 1 # 2 |}.

(** *** Entry point (parseTasteQuery)

    The optional model-assisted parser is an external service: it is a
    parameter here, returning [None] for the [null] the source returns
    after any failure.  [USE_LOCAL_GEMMA] is the configuration flag. *)

Variable USE_LOCAL_GEMMA : bool.
Variable parseWithGemma : jsstring -> option TasteAttributes.

Definition emptyTasteAttributes : TasteAttributes :=
  {| cuisines := [];
     heat := lit "none";
     dietary := [];
     healthGoals := [];
     foodTypes := [];
     prepMethods := [];
     taste_ingredients := [];
     restrictions := [];
     confidence := 0 |}.

Definition parseTasteQuery (tasteQuery : jsstring) : TasteAttributes :=
  if (List.length tasteQuery =? 0)%nat || (List.length (trim tasteQuery) =? 0)%nat
  then emptyTasteAttributes
  else
    match (if USE_LOCAL_GEMMA then parseWithGemma tasteQuery else None) with
    | Some gemmaResult => gemmaResult
    | None => parseWithKeywords tasteQuery
    end.

(** *** Relevance scorer (scoreMealAgainstTaste) *)

(** The template literal that builds the searched text of a meal. *)
Definition itemTextOf (mealItem : MenuItem) : jsstring :=
  toLowerCase
    (or_empty_string (name mealItem) ++ lit " "
       ++ or_empty_string (description mealItem) ++ lit " "
       ++ join (lit " ") (or_empty (ingredients mealItem))).

(** [if (tags.length > 0) tags.forEach(t => { if (text.includes(t)) score += points })] *)
Definition addPerMatch (text : jsstring) (tags : list jsstring) (points : Z) (score_ : Z) : Z :=
  if (0 <? List.length tags)%nat then
    fold_left (fun score_ tag => if includes text tag then (score_ + points)%Z else score_)
              tags score_
  else score_.

(** The health-goal boost. *)
Definition addHealthBoost (itemText : jsstring) (goals : list jsstring) (score_ : Z) : Z :=
  if (0 <? List.length goals)%nat then
    let score_ :=
      if includes itemText (lit "low fat") || includes itemText (lit "healthy")
      then (score_ + 5)%Z else score_ in
    let score_ := if includes itemText (lit "high protein") then (score_ + 5)%Z else score_ in
    let score_ := if includes itemText (lit "low sodium") then (score_ + 5)%Z else score_ in
    score_
  else score_.

(** The allergen penalty, once per allergen found in the text. *)
Definition subAllergens (itemText : jsstring) (prefs : UserPreferences) (score_ : Z) : Z :=
  match allergies prefs with
  | Some al =>
      if (0 <? List.length al)%nat then
        let allergenText := itemText in
        fold_left
          (fun score_ allergen =>
             if includes allergenText (toLowerCase allergen) then (score_ - 1000)%Z else score_)
          al score_
      else score_
  | None => score_
  end.

(** The unmet-dietary penalty. *)
Definition subDietary (itemText : jsstring) (prefs : UserPreferences) (score_ : Z) : Z :=
  match dietaryRestrictions prefs with
  | Some dr =>
      if (0 <? List.length dr)%nat then
        let hasDietary := existsb (fun d => includes itemText (toLowerCase d)) dr in
        if (0 <? List.length dr)%nat && negb hasDietary then (score_ - 100)%Z else score_
      else score_
  | None => score_
  end.

(** The value of the variable [score] when the [return] is reached. *)
Definition scoreBeforeFloor
    (mealItem : MenuItem) (tasteAttributes : TasteAttributes) (userPreferences : UserPreferences)
  : Z :=
  let score_ := 0%Z in
  let itemText := itemTextOf mealItem in
  let score_ := addPerMatch itemText (cuisines tasteAttributes) 30%Z score_ in
  let score_ := addPerMatch itemText (foodTypes tasteAttributes) 25%Z score_ in
  let score_ := addPerMatch itemText (prepMethods tasteAttributes) 15%Z score_ in
  let score_ := addPerMatch itemText (taste_ingredients tasteAttributes) 10%Z score_ in
  let score_ := addHealthBoost itemText (healthGoals tasteAttributes) score_ in
  let score_ := subAllergens itemText userPreferences score_ in
  let score_ := subDietary itemText userPreferences score_ in
  score_.

Definition scoreMealAgainstTaste
    (mealItem : MenuItem) (tasteAttributes : TasteAttributes) (userPreferences : UserPreferences)
  : Z :=
  Z.max 0 (scoreBeforeFloor mealItem tasteAttributes userPreferences).

(** *** Restaurant-level aggregation (calculateRestaurantMatchScore)

    The running [score] is a JavaScript number; it is kept as an exact
    rational, the meal scores being integers. *)

Definition restaurantTextOf (restaurant : Restaurant) : jsstring :=
  toLowerCase
    (restaurant_name restaurant ++ lit " "
       ++ join (lit " ") (or_empty (dietaryOptions restaurant))).

Definition addPerMatchQ (text : jsstring) (tags : list jsstring) (points : Q) (score_ : Q) : Q :=
  if (0 <? List.length tags)%nat then
    fold_left (fun score_ tag => if includes text tag then score_ + points else score_)
              tags score_
  else score_.

(** [restaurant.rating && restaurant.rating > 4] *)
Definition ratingAbove4 (restaurant : Restaurant) : bool :=
  match rating restaurant with
  | Some r => negb (Qeq_bool r 0) && negb (Qle_bool r 4)
  | None => false
  end.

Definition scoreBeforeRound
    (restaurant : Restaurant) (tasteAttributes : TasteAttributes) (meals : list ScoredMenuItem)
  : Q :=
  let score_ := 0 in
  let restaurantText := restaurantTextOf restaurant in
  let score_ := addPerMatchQ restaurantText (cuisines tasteAttributes) 30 score_ in
  let score_ :=
    match meals with
    | top :: _ =>
        let topMealScore := inject_Z (score top) in
        score_ + Qmin (topMealScore / 10) 40
    | [] => score_
    end in
  let score_ := addPerMatchQ restaurantText (dietary tasteAttributes) 20 score_ in
  let score_ := if ratingAbove4 restaurant then score_ + 10 else score_ in
  score_.

Definition calculateRestaurantMatchScore
    (restaurant : Restaurant) (tasteAttributes : TasteAttributes) (meals : list ScoredMenuItem)
  : Z :=
  round (scoreBeforeRound restaurant tasteAttributes meals).

(** *** Predicates in which the properties are stated *)

(** [kw] occurs in [s] as a contiguous substring. *)
Definition occursIn (kw s : jsstring) : Prop :=
  exists before after, s = before ++ kw ++ after.

(** Some tag of [configured] equals, up to case, a declared allergen of
    the item. *)
Definition carriesAllergen (item : MenuItem) (configured : list jsstring) : Prop :=
  exists a b,
    In a configured /\ In b (or_empty (allergens item))
    /\ toLowerCase a = toLowerCase b.

(** The item carries a dietary label that lower-cases to [l]. *)
Definition hasLabel (item : MenuItem) (l : jsstring) : Prop :=
  exists x, In x (or_empty (dietary_labels item)) /\ toLowerCase x = l.

(** A required dietary tag is satisfied: directly, or through one of the
    two implication rules. *)
Definition satisfiesTag (item : MenuItem) (tag : jsstring) : Prop :=
  hasLabel item (toLowerCase tag)
  \/ (toLowerCase tag = lit "vegetarian" /\ hasLabel item (lit "vegan"))
  \/ (toLowerCase tag = lit "pescetarian"
      /\ (hasLabel item (lit "vegan") \/ hasLabel item (lit "vegetarian"))).

(** The string read back from its pieces and the runs that separated
    them. *)
Fixpoint interleave (pieces separators : list jsstring) : jsstring :=
  match pieces, separators with
  | piece :: pieces', sep :: separators' => piece ++ sep ++ interleave pieces' separators'
  | piece :: _, [] => piece
  | [], _ => []
  end.

(** Some trigger of the list occurs in [s]. *)
Definition hit (triggers : list jsstring) (s : jsstring) : Prop :=
  exists kw, In kw triggers /\ occursIn kw s.

(** The triggers a table lists under a tag. *)
Definition triggersOf (table : KeywordTable) (tag : jsstring) : list jsstring :=
  match find (fun entry => str_eqb (fst entry) tag) table with
  | Some entry => snd entry
  | None => []
  end.

(** The tags of a table. *)
Definition tagsOf (table : KeywordTable) : list jsstring := List.map fst table.

Definition taxonomy : list KeywordTable :=
  [CUISINE_KEYWORDS; HEAT_KEYWORDS; DIETARY_KEYWORDS; HEALTH_GOALS_KEYWORDS;
   FOOD_TYPE_KEYWORDS; PREP_KEYWORDS].

(** [kw] is a trigger phrase of some tag of some table. *)
Definition triggerPhrase (kw : jsstring) : Prop :=
  exists table tag keywords,
    In table taxonomy /\ In (tag, keywords) table /\ In kw keywords.

(** How many of the tags occur in the text. *)
Definition countFound (text : jsstring) (tags : list jsstring) : nat :=
  List.length (List.filter (fun tag => includes text tag) tags).

(** The restaurant score as the specification words it, before
    rounding. *)
Definition matchScoreFormula
    (restaurant : Restaurant) (tasteAttributes : TasteAttributes) (meals : list ScoredMenuItem)
  : Q :=
  let text := restaurantTextOf restaurant in
  30 * inject_Z (Z.of_nat (countFound text (cuisines tasteAttributes)))
  + 20 * inject_Z (Z.of_nat (countFound text (dietary tasteAttributes)))
  + match meals with
    | top :: _ => Qmin (inject_Z (score top) / 10) 40
    | [] => 0
    end
  + match rating restaurant with
    | Some r => if Qlt_le_dec 4 r then 10 else 0
    | None => 0
    end.

End Operations.

(** ** The rest of the search pipeline

    More built-ins first: the comparator sort, the template placeholder
    and the regular-expression match used on the model's answer. *)

(** [arr.sort((a, b) => key(b) - key(a))] on integer keys: the comparator
    is consistent, so the result is the one stable arrangement by
    decreasing key; insertion from the right builds it. *)
Fixpoint insertDesc {A : Type} (key : A -> Z) (x : A) (sorted : list A) : list A :=
  match sorted with
  | [] => [x]
  | y :: rest => if (key x <? key y)%Z then y :: insertDesc key x rest else x :: sorted
  end.

Definition sortDesc {A : Type} (key : A -> Z) (arr : list A) : list A :=
  fold_right (insertDesc key) [] arr.

(** No element is followed by one with a larger key. *)
Definition descending {A : Type} (key : A -> Z) : A -> A -> Prop :=
  fun a b => (key b <= key a)%Z.

(** [`${x}`] when [x] is a string or is missing. *)
Definition placeholder (x : option jsstring) : jsstring :=
  match x with Some s => s | None => lit "undefined" end.

(** The suffix of [s] that starts at the first [c]. *)
Fixpoint fromFirst (c : N) (s : jsstring) : option jsstring :=
  match s with
  | [] => None
  | x :: s' => if (x =? c)%N then Some s else fromFirst c s'
  end.

(** The prefix of [s] that ends at the last [c]. *)
Fixpoint uptoLast (c : N) (s : jsstring) : option jsstring :=
  match s with
  | [] => None
  | x :: s' =>
      match uptoLast c s' with
      | Some p => Some (x :: p)
      | None => if (x =? c)%N then Some [x] else None
      end
  end.

(** [s.match(/O[\s\S]*C/)] for two delimiter characters [O] and [C]: the
    leftmost match, as long as possible; [None] is the [null] of no
    match, [Some m] is element 0 of the match. *)
Definition matchDelimited (open close : N) (s : jsstring) : option jsstring :=
  match fromFirst open s with
  | Some (o :: rest) =>
      match uptoLast close rest with
      | Some body => Some (o :: body)
      | None => None
      end
  | _ => None
  end.

(** [responseText.match(/\{[\s\S]*\}/)] of parseWithGemma. *)
Definition jsonMatch (responseText : jsstring) : option jsstring :=
  matchDelimited 123 125 responseText.

(** *** Menu normalisation (MealMeService.getMenuItems)

    The part after the request: the categories of the response are
    flattened into items, missing fields getting their defaults. *)

Record Product := {
  product_name : option jsstring;
  product_description : option jsstring;
  product_available : option bool;
  product_allergens : option (list jsstring);
  product_dietary_labels : option (list jsstring);
  product_ingredients : option (list jsstring)
}.

(** A category of the response; [products] is [None] when the field is
    missing or is no array. *)
Record Category := {
  products : option (list Product)
}.

(** The object pushed for one product. *)
Definition menuItemOfProduct (product : Product) : MenuItem :=
  {| name := product_name product;
     description := Some (or_empty_string (product_description product));
     ingredients := Some (or_empty (product_ingredients product));
     allergens := Some (or_empty (product_allergens product));
     dietary_labels := Some (or_empty (product_dietary_labels product));
     available := Some (match product_available product with
                        | Some false => false
                        | _ => true
                        end) |}.

Definition flattenMenu (categories : list Category) : list MenuItem :=
  fold_left
    (fun items category =>
       match products category with
       | Some ps => fold_left (fun items product => items ++ [menuItemOfProduct product]) ps items
       | None => items
       end)
    categories [].

(** *** Duplicate removal (deduplicateRestaurants of the legacy server)

    The key of a restaurant is a string built from its lower-cased name
    and its coordinates multiplied by 100 and rounded; the function is
    modelled for any key, [seen] being the [Set] of keys met so far. *)

Section Deduplication.

Context {R : Type}.
Variable keyOf : R -> jsstring.

Fixpoint dedupFrom (seen : list jsstring) (restaurants : list R) : list R :=
  match restaurants with
  | [] => []
  | restaurant :: rest =>
      let key := keyOf restaurant in
      if arr_includes seen key then dedupFrom seen rest
      else restaurant :: dedupFrom (key :: seen) rest
  end.

Definition deduplicateRestaurants (restaurants : list R) : list R :=
  dedupFrom [] restaurants.

End Deduplication.

(** A restaurant of the response, with its score and curated meals. *)
Record RestaurantMatch := {
  matched : Restaurant;
  matchScore : Z;
  meals : list ScoredMenuItem
}.

Section Pipeline.

Variable toLowerCase : jsstring -> jsstring.

(** *** Match reasons (generateMatchReasons) *)

Definition reasonTextOf (meal_ : MenuItem) : jsstring :=
  toLowerCase (placeholder (name meal_) ++ lit " " ++ placeholder (description meal_)).

Definition generateMatchReasons (meal_ : MenuItem) (tasteAttributes : TasteAttributes)
  : list jsstring :=
  let reasons : list jsstring := [] in
  let itemText := reasonTextOf meal_ in
  let reasons :=
    if existsb (fun c => includes itemText c) (cuisines tasteAttributes)
    then reasons ++ [lit "Matches cuisine preference"] else reasons in
  let reasons :=
    if existsb (fun t => includes itemText t) (foodTypes tasteAttributes)
    then reasons ++ [lit "Matches food type"] else reasons in
  let reasons :=
    if existsb (fun i => includes itemText i) (taste_ingredients tasteAttributes)
    then reasons ++ [lit "Contains requested ingredients"] else reasons in
  let reasons :=
    if existsb (fun p => includes itemText p) (prepMethods tasteAttributes)
    then reasons ++ [lit "Prepared as requested ("
                       ++ placeholder (nth_error (prepMethods tasteAttributes) 0)
                       ++ lit ")"]
    else reasons in
  let reasons :=
    match dietary_labels meal_ with
    | Some labels =>
        if (0 <? List.length labels)%nat
        then reasons ++ [join (lit ", ") labels ++ lit " option"] else reasons
    | None => reasons
    end in
  firstn 3 reasons.

(** *** Meal curation and ranking (POST /api/restaurants/search-by-taste) *)

(** The object built for each filtered item. *)
Definition scoredMealOf
    (tasteAttributes : TasteAttributes) (allergies_ dietaryRestrictions_ : list jsstring)
    (item : MenuItem) : ScoredMenuItem :=
  {| meal := {| name := name item;
                description := description item;
                ingredients := None;
                allergens := allergens item;
                dietary_labels := dietary_labels item;
                available := None |};
     score := scoreMealAgainstTaste toLowerCase item tasteAttributes
                {| allergies := Some allergies_;
                   dietaryRestrictions := Some dietaryRestrictions_ |};
     matchReasons := generateMatchReasons item tasteAttributes |}.

(** Filter, score, sort by decreasing score, keep five. *)
Definition curateMeals
    (menuItems : list MenuItem) (tasteAttributes : TasteAttributes)
    (allergies_ dietaryRestrictions_ : list jsstring) : list ScoredMenuItem :=
  let filtered :=
    filterItemsByPreferences toLowerCase menuItems allergies_ dietaryRestrictions_ in
  firstn 5
    (sortDesc score
       (List.map (scoredMealOf tasteAttributes allergies_ dietaryRestrictions_) filtered)).

(** One restaurant of step 3; [menu] is [None] when no menu is fetched for
    it, which leaves [meals] empty. *)
Definition restaurantWithMeals
    (tasteAttributes : TasteAttributes) (allergies_ dietaryRestrictions_ : list jsstring)
    (restaurant : Restaurant) (menu : option (list MenuItem)) : RestaurantMatch :=
  let meals_ :=
    match menu with
    | Some menuItems => curateMeals menuItems tasteAttributes allergies_ dietaryRestrictions_
    | None => []
    end in
  {| matched := restaurant;
     matchScore := calculateRestaurantMatchScore toLowerCase restaurant tasteAttributes meals_;
     meals := meals_ |}.

(** Step 4: drop the restaurants with neither score nor meals, sort by
    decreasing match score, keep ten. *)
Definition topRestaurants (restaurantsWithMeals : list RestaurantMatch) : list RestaurantMatch :=
  firstn 10
    (sortDesc matchScore
       (List.filter
          (fun r => (0 <? matchScore r)%Z || (0 <? List.length (meals r))%nat)
          restaurantsWithMeals)).

(** Steps 3 and 4 on the restaurants found; [menuOf] stands for the menu
    service. *)
Definition searchByTaste
    (restaurants : list Restaurant) (menuOf : Restaurant -> option (list MenuItem))
    (tasteAttributes : TasteAttributes) (allergies_ dietaryRestrictions_ : list jsstring)
  : list RestaurantMatch :=
  topRestaurants
    (List.map
       (fun restaurant =>
          restaurantWithMeals tasteAttributes allergies_ dietaryRestrictions_
            restaurant (menuOf restaurant))
       (firstn 10 restaurants)).

(** The additive part and the two penalties of the scorer, in closed
    form. *)
Definition healthBoost (itemText : jsstring) (goals : list jsstring) : Z :=
  match goals with
  | [] => 0
  | _ :: _ =>
      ((if includes itemText (lit "low fat") || includes itemText (lit "healthy") then 5 else 0)
       + (if includes itemText (lit "high protein") then 5 else 0)
       + (if includes itemText (lit "low sodium") then 5 else 0))%Z
  end.

Definition additiveScore (itemText : jsstring) (tasteAttributes : TasteAttributes) : Z :=
  (30 * Z.of_nat (countFound itemText (cuisines tasteAttributes))
   + 25 * Z.of_nat (countFound itemText (foodTypes tasteAttributes))
   + 15 * Z.of_nat (countFound itemText (prepMethods tasteAttributes))
   + 10 * Z.of_nat (countFound itemText (taste_ingredients tasteAttributes))
   + healthBoost itemText (healthGoals tasteAttributes))%Z.

Definition allergensFound (itemText : jsstring) (prefs : UserPreferences) : nat :=
  countFound itemText (List.map toLowerCase (or_empty (allergies prefs))).

Definition dietaryUnmet (itemText : jsstring) (prefs : UserPreferences) : bool :=
  match or_empty (dietaryRestrictions prefs) with
  | [] => false
  | dr => negb (existsb (fun d => includes itemText (toLowerCase d)) dr)
  end.

End Pipeline.

(** No string of the list occurs twice in it. *)
Fixpoint distinctb (l : list jsstring) : bool :=
  match l with
  | [] => true
  | x :: rest => negb (arr_includes rest x) && distinctb rest
  end.

(** ** The scenarios of the specification

    Their strings are ASCII, so [toLowerCase_ascii] is what the built-in
    computes on them; the keyword strategy is the one configured. *)

Definition keywordStrategy (tasteQuery : jsstring) : TasteAttributes :=
  parseTasteQuery toLowerCase_ascii false (fun _ => None) tasteQuery.

Definition spicyVeggieTaco : MenuItem :=
  {| name := Some (lit "Spicy Veggie Taco");
     description := Some [];
     ingredients := None;
     allergens := Some [];
     dietary_labels := Some [lit "vegetarian"];
     available := None |}.

Definition vegetarianOnlyItem : MenuItem :=
  {| name := Some (lit "Garden Bowl");
     description := Some (lit "Seasonal vegetables and rice");
     ingredients := None;
     allergens := Some [];
     dietary_labels := Some [lit "vegetarian"];
     available := Some true |}.

Definition veganOnlyItem : MenuItem :=
  {| name := Some (lit "Tofu Bowl");
     description := Some [];
     ingredients := None;
     allergens := Some [lit "Soy"];
     dietary_labels := Some [lit "Vegan"];
     available := Some true |}.

Definition noPreferences : UserPreferences :=
  {| allergies := Some []; dietaryRestrictions := Some [] |}.

Definition cantina : Restaurant :=
  {| restaurant_name := lit "Casa Mexican Grill";
     dietaryOptions := Some [lit "Vegan"];
     rating := Some (9 # 2) |}.

Definition soyNoodles : MenuItem :=
  {| name := Some (lit "Soy Glazed Noodles");
     description := Some (lit "Wok noodles with shrimp");
     ingredients := Some [lit "noodles"; lit "soy sauce"; lit "shrimp"];
     allergens := Some [lit "soy"; lit "shellfish"];
     dietary_labels := None;
     available := Some true |}.

Definition shrimpTacos : MenuItem :=
  {| name := Some (lit "Mexican Shrimp Tacos");
     description := Some (lit "Grilled shrimp in corn tortillas");
     ingredients := None;
     allergens := Some [lit "shellfish"];
     dietary_labels := Some [lit "pescetarian"];
     available := Some true |}.

Definition sampleMenu : list MenuItem :=
  [vegetarianOnlyItem; soyNoodles; veganOnlyItem; shrimpTacos; spicyVeggieTaco].

Definition bistro : Restaurant :=
  {| restaurant_name := lit "Corner Bistro";
     dietaryOptions := None;
     rating := Some (7 # 2) |}.

(** ** Facts about the string built-ins *)

Lemma str_eqb_eq (a b : jsstring) : str_eqb a b = true <-> a = b.
Proof.
  revert b; induction a as [|x a IH]; intros [|y b]; simpl; split; intro H;
    try reflexivity; try discriminate.
  - apply andb_true_iff in H as [Hx Hab].
    apply N.eqb_eq in Hx. apply IH in Hab. congruence.
  - injection H as -> ->. rewrite N.eqb_refl. simpl. now apply IH.
Qed.

Lemma str_eqb_refl (a : jsstring) : str_eqb a a = true.
Proof. now apply str_eqb_eq. Qed.

Lemma arr_includes_In (arr : list jsstring) (x : jsstring) :
  arr_includes arr x = true <-> In x arr.
Proof.
  unfold arr_includes. rewrite existsb_exists. split.
  - intros (y & Hy & E). apply str_eqb_eq in E. now subst.
  - intro H. exists x. split; [assumption | apply str_eqb_refl].
Qed.

Lemma arr_includes_map (f : jsstring -> jsstring) (arr : list jsstring) (x : jsstring) :
  arr_includes (List.map f arr) x = true <-> exists y, In y arr /\ f y = x.
Proof.
  rewrite arr_includes_In, in_map_iff. split; intros (y & A & B); exists y; tauto.
Qed.

Lemma startsWith_app (t s : jsstring) :
  startsWith t s = true <-> exists rest, s = t ++ rest.
Proof.
  revert s; induction t as [|x t IH]; intros s; simpl.
  - split; [intros _; now exists s | reflexivity].
  - destruct s as [|y s].
    + split; [discriminate | intros (r & E); discriminate].
    + rewrite andb_true_iff, N.eqb_eq, IH. split.
      * intros (-> & r & ->). now exists r.
      * intros (r & E). injection E as -> ->. split; [reflexivity | now exists r].
Qed.

Lemma includes_occursIn (s t : jsstring) : includes s t = true <-> occursIn t s.
Proof.
  unfold occursIn. induction s as [|c s IH]; simpl.
  - rewrite orb_false_r, startsWith_app. split.
    + intros (r & E). now exists [], r.
    + intros (p & r & E). destruct p; [now exists r | discriminate].
  - rewrite orb_true_iff, startsWith_app, IH. split.
    + intros [(r & E) | (p & r & E)].
      * now exists [], r.
      * exists (c :: p), r. simpl. now rewrite E.
    + intros (p & r & E). destruct p as [|d p].
      * left. now exists r.
      * right. injection E as _ E. now exists p, r.
Qed.

Lemma trimStart_nil (s : jsstring) : trimStart s = [] <-> forallb is_space s = true.
Proof.
  induction s as [|c s IH]; simpl; [tauto|].
  destruct (is_space c); simpl; [assumption | split; discriminate].
Qed.

Lemma trimStart_all_space (s : jsstring) :
  forallb is_space s = false -> forallb is_space (trimStart s) = false.
Proof.
  induction s as [|c s IH]; simpl; [discriminate|].
  destruct (is_space c) eqn:E; simpl; [assumption | now rewrite E].
Qed.

(** [trim] leaves nothing exactly when the string is white space only. *)
Lemma trim_length_0 (s : jsstring) :
  (List.length (trim s) =? 0)%nat = forallb is_space s.
Proof.
  unfold trim. rewrite length_rev.
  destruct (forallb is_space s) eqn:E.
  - apply trimStart_nil in E. rewrite E. reflexivity.
  - apply trimStart_all_space in E.
    assert (F : forallb is_space (rev (trimStart s)) = false).
    { rewrite <- E. clear E. generalize (trimStart s) as l. intro l.
      apply eq_true_iff_eq. rewrite !forallb_forall.
      split; intros H x Hx; apply H; [apply (proj1 (in_rev l x) Hx) | apply (proj2 (in_rev l x) Hx)]. }
    destruct (trimStart (rev (trimStart s))) eqn:T; [|reflexivity].
    apply trimStart_nil in T. congruence.
Qed.

(** ** The preference filter *)

Section FilterProperties.

Variable toLowerCase : jsstring -> jsstring.

Lemma meetsRestriction_satisfiesTag (item : MenuItem) (tag : jsstring) :
  meetsRestriction toLowerCase
    (List.map toLowerCase (or_empty (dietary_labels item))) tag = true
  <-> satisfiesTag toLowerCase item tag.
Proof.
  unfold meetsRestriction, satisfiesTag, hasLabel.
  set (labels := List.map toLowerCase (or_empty (dietary_labels item))).
  pose proof (arr_includes_map toLowerCase (or_empty (dietary_labels item))) as M.
  fold labels in M.
  rewrite <- !M, <- !str_eqb_eq.
  destruct (arr_includes labels (toLowerCase tag)); [tauto|].
  destruct (str_eqb (toLowerCase tag) (lit "vegetarian"));
    destruct (str_eqb (toLowerCase tag) (lit "pescetarian"));
    destruct (arr_includes labels (lit "vegan"));
    destruct (arr_includes labels (lit "vegetarian")); simpl; intuition congruence.
Qed.

Lemma hasAllergen_carriesAllergen (item : MenuItem) (configured : list jsstring) :
  existsb
    (fun a => arr_includes (List.map toLowerCase (or_empty (allergens item))) (toLowerCase a))
    configured = true
  <-> carriesAllergen toLowerCase item configured.
Proof.
  unfold carriesAllergen. rewrite existsb_exists. split.
  - intros (a & Ha & H). apply arr_includes_map in H as (b & Hb & E). now exists a, b.
  - intros (a & b & Ha & Hb & E). exists a. split; [assumption|].
    apply arr_includes_map. now exists b.
Qed.

(** The three exclusion tests of the filter callback, read as
    propositions. *)
Lemma keepItem_true_iff (configured required : list jsstring) (item : MenuItem) :
  keepItem toLowerCase configured required item = true
  <-> ~ carriesAllergen toLowerCase item configured
      /\ (forall tag, In tag required -> satisfiesTag toLowerCase item tag)
      /\ available item <> Some false.
Proof.
  unfold keepItem.
  assert (A : (if (0 <? List.length configured)%nat
               then existsb
                      (fun a => arr_includes
                                  (List.map toLowerCase (or_empty (allergens item)))
                                  (toLowerCase a)) configured
               else false) = true
              <-> carriesAllergen toLowerCase item configured).
  { destruct configured as [|a0 rest].
    - simpl. split; [discriminate | intros (a & b & [] & _)].
    - apply hasAllergen_carriesAllergen. }
  assert (D : (if (0 <? List.length required)%nat
               then forallb
                      (meetsRestriction toLowerCase
                         (List.map toLowerCase (or_empty (dietary_labels item)))) required
               else true) = true
              <-> forall tag, In tag required -> satisfiesTag toLowerCase item tag).
  { destruct required as [|t0 rest].
    - simpl. split; [intros _ tag [] | reflexivity].
    - change (0 <? List.length (t0 :: rest))%nat with true. cbv iota.
      rewrite forallb_forall. split; intros H tag Ht.
      + now apply meetsRestriction_satisfiesTag, H.
      + now apply meetsRestriction_satisfiesTag, H. }
  destruct (if (0 <? List.length configured)%nat then _ else false).
  - split; [discriminate|]. intros (H & _). exfalso. apply H, A. reflexivity.
  - destruct (if (0 <? List.length required)%nat then _ else true); simpl.
    + destruct (available item) as [[|]|]; split; try reflexivity; try discriminate.
      * intros _. split; [intro C; apply A in C; discriminate|].
        split; [now apply D | discriminate].
      * intros (_ & _ & H). now contradiction H.
      * intros _. split; [intro C; apply A in C; discriminate|].
        split; [now apply D | discriminate].
    + split; [discriminate|]. intros (_ & H & _). apply D in H. discriminate.
Qed.

(** C1.  An item one of whose declared allergens equals, up to case, one
    of the configured allergen tags is never in the output of the filter,
    whatever the required dietary tags are and whether or not the item
    meets them. *)
Theorem allergen_exclusion
    (items : list MenuItem) (configured required : list jsstring) (item : MenuItem) :
  configured <> [] ->
  carriesAllergen toLowerCase item configured ->
  ~ In item (filterItemsByPreferences toLowerCase items configured required).
Proof.
  intros _ C H. unfold filterItemsByPreferences in H.
  apply filter_In in H as (_ & K). apply keepItem_true_iff in K. tauto.
Qed.

(** C3.  With a non-empty list of required dietary tags, an item kept by
    the filter satisfies every required tag: it carries the tag itself,
    or the tag is vegetarian and it carries vegan, or the tag is
    pescetarian and it carries vegan or vegetarian, all up to case. *)
Theorem dietary_requirements_met
    (items : list MenuItem) (configured required : list jsstring) (item : MenuItem) :
  required <> [] ->
  In item (filterItemsByPreferences toLowerCase items configured required) ->
  forall tag, In tag required -> satisfiesTag toLowerCase item tag.
Proof.
  intros _ H. unfold filterItemsByPreferences in H.
  apply filter_In in H as (_ & K). apply keepItem_true_iff in K. tauto.
Qed.

End FilterProperties.

(** ** The keyword parser *)

Lemma someKeyword_hit (query : jsstring) (keywords : list jsstring) :
  someKeyword query keywords = true <-> hit keywords query.
Proof.
  unfold someKeyword, hit. rewrite existsb_exists.
  split; intros (kw & Hin & H); exists kw; split; try assumption;
    now apply includes_occursIn.
Qed.

(** The push loop appends, in table order, the tags that have a trigger
    in the query. *)
Lemma detectTags_filter (table : KeywordTable) (query : jsstring) (field : list jsstring) :
  detectTags table query field
  = field ++ List.map fst (List.filter (fun entry => someKeyword query (snd entry)) table).
Proof.
  unfold detectTags, entries. revert field.
  induction table as [|[tag keywords] table IH]; intros field; simpl.
  - now rewrite app_nil_r.
  - rewrite IH. destruct (someKeyword query keywords); simpl.
    + now rewrite <- app_assoc.
    + reflexivity.
Qed.

Lemma detectTags_In (table : KeywordTable) (query tag : jsstring) :
  In tag (detectTags table query [])
  <-> exists keywords, In (tag, keywords) table /\ hit keywords query.
Proof.
  rewrite detectTags_filter. simpl. rewrite in_map_iff. split.
  - intros ([t k] & E & H). simpl in E. subst t.
    apply filter_In in H as (H & S). simpl in S.
    exists k. split; [assumption | now apply someKeyword_hit].
  - intros (k & H & S). exists (tag, k). split; [reflexivity|].
    apply filter_In. split; [assumption | now apply someKeyword_hit].
Qed.

Lemma detectTags_tagsOf (table : KeywordTable) (query : jsstring) :
  Forall (fun tag => In tag (tagsOf table)) (detectTags table query []).
Proof.
  apply Forall_forall. intros tag H.
  apply detectTags_In in H as (k & H & _).
  unfold tagsOf. apply in_map_iff. now exists (tag, k).
Qed.

Lemma detectHeat_levels (levels : KeywordTable) (query fallback : jsstring) :
  In (detectHeat levels query fallback) (fallback :: tagsOf levels).
Proof.
  induction levels as [|[level keywords] levels IH]; simpl.
  - now left.
  - destruct (someKeyword query keywords).
    + right. now left.
    + destruct IH as [IH | IH]; [now left | right; now right].
Qed.

Lemma allKeywords_triggerPhrase (w : jsstring) : In w allKeywords <-> triggerPhrase w.
Proof.
  unfold allKeywords, flat, values, triggerPhrase.
  rewrite in_concat. split.
  - intros (kws & H & Hw).
    assert (T : exists table, In table taxonomy /\ In kws (List.map snd table)).
    { unfold taxonomy.
      repeat (apply in_app_or in H as [H | H];
              [eexists; split; [|exact H]; simpl; tauto|]).
      eexists; split; [|exact H]; simpl; tauto. }
    destruct T as (table & Ht & Hk). apply in_map_iff in Hk as ([tag k] & E & Hk).
    simpl in E. subst k. now exists table, tag, kws.
  - intros (table & tag & kws & Ht & Hk & Hw). exists kws. split; [|assumption].
    assert (M : In kws (List.map snd table)) by (apply in_map_iff; now exists (tag, kws)).
    unfold taxonomy in Ht. simpl in Ht.
    repeat (destruct Ht as [<- | Ht];
            [repeat (first [apply in_or_app; left; exact M | apply in_or_app; right]);
             exact M|]).
    contradiction.
Qed.

Lemma isIngredient_true_iff (w : jsstring) :
  isIngredient w = true
  <-> (2 < List.length w)%nat /\ ~ triggerPhrase w /\ w <> lit "and" /\ w <> lit "with".
Proof.
  unfold isIngredient.
  rewrite !andb_true_iff, !negb_true_iff, Nat.ltb_lt, <- allKeywords_triggerPhrase.
  rewrite <- arr_includes_In, <- !str_eqb_eq.
  destruct (arr_includes allKeywords w), (str_eqb w (lit "and")), (str_eqb w (lit "with"));
    intuition congruence.
Qed.

(** What [split(/\s+/)] returns: pieces free of white space. *)
Lemma split_ws_no_space (s : jsstring) :
  Forall (fun tok => forallb (fun c => negb (is_space c)) tok = true) (split_ws s).
Proof.
  induction s as [|c s IH]; simpl.
  - repeat constructor.
  - destruct (is_space c) eqn:E.
    + destruct s as [|c' s']; [repeat constructor|].
      destruct (is_space c'); [assumption | now constructor].
    + destruct (split_ws s) as [|tok rest]; [repeat constructor; simpl; now rewrite E|].
      inversion IH as [|? ? Htok Hrest]; subst. constructor; [|assumption].
      simpl. now rewrite E.
Qed.

(** The pieces, put end to end, are the query without its white space. *)
Lemma split_ws_concat (s : jsstring) :
  List.concat (split_ws s) = List.filter (fun c => negb (is_space c)) s.
Proof.
  induction s as [|c s IH]; [reflexivity|].
  cbn [split_ws List.filter]. destruct (is_space c) eqn:E; cbn [negb].
  - destruct s as [|c' s']; [reflexivity|].
    destruct (is_space c'); [assumption | exact IH].
  - destruct (split_ws s) as [|tok rest]; simpl in *; now rewrite <- IH.
Qed.

Lemma split_ws_space_cons (c c' : N) (s : jsstring) :
  is_space c = true ->
  split_ws (c :: c' :: s)
  = if is_space c' then split_ws (c' :: s) else [] :: split_ws (c' :: s).
Proof.
  intro H.
  change (split_ws (c :: c' :: s))
    with (if is_space c
          then if is_space c' then split_ws (c' :: s) else [] :: split_ws (c' :: s)
          else match split_ws (c' :: s) with
               | tok :: rest => (c :: tok) :: rest
               | [] => [[c]]
               end).
  now rewrite H.
Qed.

Lemma split_ws_other_eq (c : N) (s : jsstring) :
  is_space c = false ->
  split_ws (c :: s)
  = match split_ws s with
    | tok :: rest => (c :: tok) :: rest
    | [] => [[c]]
    end.
Proof.
  intro H. destruct s; simpl; rewrite H; reflexivity.
Qed.

Lemma split_ws_nonempty (s : jsstring) : split_ws s <> [].
Proof.
  induction s as [|c s IH]; [discriminate|].
  destruct (is_space c) eqn:E.
  - destruct s as [|c' s'].
    + simpl. rewrite E. discriminate.
    + rewrite split_ws_space_cons by assumption.
      destruct (is_space c'); [exact IH | discriminate].
  - rewrite split_ws_other_eq by assumption. destruct (split_ws s); discriminate.
Qed.

Lemma split_ws_other_cons (c : N) (s : jsstring) :
  is_space c = false ->
  exists tok rest, split_ws s = tok :: rest /\ split_ws (c :: s) = (c :: tok) :: rest.
Proof.
  intro H. rewrite split_ws_other_eq by assumption.
  pose proof (split_ws_nonempty s) as NE.
  destruct (split_ws s) as [|tok rest]; [contradiction|].
  now exists tok, rest.
Qed.

Lemma split_ws_leading_space (c : N) (s : jsstring) :
  is_space c = true -> exists rest, split_ws (c :: s) = [] :: rest /\ rest <> [].
Proof.
  revert c. induction s as [|c' s IH]; intros c Hc.
  - simpl. rewrite Hc. now exists [[]].
  - rewrite split_ws_space_cons by assumption. destruct (is_space c') eqn:E.
    + now apply IH.
    + exists (split_ws (c' :: s)). split; [reflexivity|].
      destruct (split_ws_other_cons c' s E) as (tok & rest & _ & ->). discriminate.
Qed.

(** The pieces are separated by non-empty runs of white space, and
    pieces and runs together spell the string. *)
Lemma split_ws_interleave (s : jsstring) :
  exists separators,
    S (List.length separators) = List.length (split_ws s)
    /\ Forall (fun sep => sep <> [] /\ forallb is_space sep = true) separators
    /\ interleave (split_ws s) separators = s.
Proof.
  induction s as [|c s IH].
  - exists []. repeat split. constructor.
  - destruct IH as (seps & Hlen & Hsep & Hs).
    destruct (is_space c) eqn:E.
    + destruct s as [|c' s'].
      * exists [[c]]. simpl. rewrite E. repeat split. constructor; [|constructor].
        split; [discriminate | simpl; now rewrite E].
      * rewrite split_ws_space_cons by assumption. destruct (is_space c') eqn:E'.
        -- destruct (split_ws_leading_space c' s' E') as (rest & R & Hrest).
           rewrite R in *.
           destruct seps as [|sep seps'];
             [destruct rest; [contradiction | discriminate]|].
           exists ((c :: sep) :: seps'). split; [exact Hlen|]. split.
           ++ inversion Hsep as [|? ? [_ Hw] Hrest']; subst. constructor; [|assumption].
              split; [discriminate | simpl; now rewrite E].
           ++ simpl in *. now rewrite Hs.
        -- exists ([c] :: seps). split; [simpl; now rewrite Hlen|]. split.
           ++ constructor; [|assumption]. split; [discriminate | simpl; now rewrite E].
           ++ change (interleave ([] :: split_ws (c' :: s')) ([c] :: seps))
                with (c :: interleave (split_ws (c' :: s')) seps).
              now rewrite Hs.
    + destruct (split_ws_other_cons c s E) as (tok & rest & T & ->).
      rewrite T in *.
      exists seps. split; [exact Hlen|]. split; [assumption|].
      destruct seps as [|sep seps']; simpl in *; now rewrite Hs.
Qed.

Example split_ws_runs :
  split_ws (lit "  grilled   fish and chips ")
  = [ []; lit "grilled"; lit "fish"; lit "and"; lit "chips"; [] ].
Proof. reflexivity. Qed.

Section ParserProperties.

Variable toLowerCase : jsstring -> jsstring.
Variable parseWithGemma : jsstring -> option TasteAttributes.

(** C6.  A query that is empty or made of white space only parses to the
    attributes with every list empty, heat none and confidence 0, whichever
    strategy is configured; any other query, under the keyword strategy,
    parses to what [parseWithKeywords] returns, whose confidence is 1/2.
    The parser is a total function of the query string: it has no failing
    branch. *)
Theorem parseTasteQuery_confidence (tasteQuery : jsstring) :
  (forallb is_space tasteQuery = true ->
   forall useGemma,
     let r := parseTasteQuery toLowerCase useGemma parseWithGemma tasteQuery in
     cuisines r = [] /\ heat r = lit "none" /\ dietary r = [] /\ healthGoals r = []
     /\ foodTypes r = [] /\ prepMethods r = [] /\ taste_ingredients r = []
     /\ restrictions r = [] /\ confidence r = 0)
  /\ (forallb is_space tasteQuery = false ->
      let r := parseTasteQuery toLowerCase false parseWithGemma tasteQuery in
      r = parseWithKeywords toLowerCase tasteQuery
      /\ confidence r = 1 # 2 /\ 0 < confidence r)
  /\ (exists r, parseTasteQuery toLowerCase false parseWithGemma tasteQuery = r).
Proof.
  unfold parseTasteQuery. rewrite trim_length_0. split; [|split].
  - intros -> useGemma. rewrite orb_true_r. cbv zeta. repeat split; reflexivity.
  - intros E. rewrite E.
    destruct tasteQuery as [|c rest]; [discriminate|].
    cbn [List.length Nat.eqb orb]. cbv zeta. repeat split; reflexivity.
  - eexists. reflexivity.
Qed.

(** C7.  The heat levels are tried in the order spicy, mild, medium; the
    heat of the parsed query is the first level one of whose triggers
    occurs in the lower-cased query, and none when no level has one.  The
    field holds that single value. *)
Theorem heat_first_match (tasteQuery : jsstring) :
  let query := toLowerCase tasteQuery in
  let h := heat (parseWithKeywords toLowerCase tasteQuery) in
  let spicy := triggersOf HEAT_KEYWORDS (lit "spicy") in
  let mild := triggersOf HEAT_KEYWORDS (lit "mild") in
  let medium := triggersOf HEAT_KEYWORDS (lit "medium") in
  tagsOf HEAT_KEYWORDS = [lit "spicy"; lit "mild"; lit "medium"]
  /\ ((hit spicy query /\ h = lit "spicy")
      \/ (~ hit spicy query /\ hit mild query /\ h = lit "mild")
      \/ (~ hit spicy query /\ ~ hit mild query /\ hit medium query /\ h = lit "medium")
      \/ (~ hit spicy query /\ ~ hit mild query /\ ~ hit medium query /\ h = lit "none")).
Proof.
  intros query h spicy mild medium. split; [reflexivity|].
  assert (E : h = if someKeyword query spicy then lit "spicy"
                  else if someKeyword query mild then lit "mild"
                  else if someKeyword query medium then lit "medium"
                  else lit "none") by reflexivity.
  rewrite E. clear E h.
  rewrite <- (someKeyword_hit query spicy), <- (someKeyword_hit query mild),
    <- (someKeyword_hit query medium).
  destruct (someKeyword query spicy), (someKeyword query mild), (someKeyword query medium);
    intuition congruence.
Qed.

(** C8.  The ingredients are the pieces of the lower-cased query between
    runs of white space that are longer than 2, are no trigger phrase of
    the taxonomy and are neither "and" nor "with", in query order and
    with repetitions; so no ingredient is a trigger phrase, and every set
    field holds tags of its own table only. *)
Theorem ingredients_and_tags (tasteQuery : jsstring) :
  let r := parseWithKeywords toLowerCase tasteQuery in
  taste_ingredients r = List.filter isIngredient (split_ws (toLowerCase tasteQuery))
  /\ (forall w, isIngredient w = true
                <-> (2 < List.length w)%nat /\ ~ triggerPhrase w
                    /\ w <> lit "and" /\ w <> lit "with")
  /\ Forall (fun w => ~ triggerPhrase w) (taste_ingredients r)
  /\ Forall (fun tag => In tag (tagsOf CUISINE_KEYWORDS)) (cuisines r)
  /\ Forall (fun tag => In tag (tagsOf DIETARY_KEYWORDS)) (dietary r)
  /\ Forall (fun tag => In tag (tagsOf HEALTH_GOALS_KEYWORDS)) (healthGoals r)
  /\ Forall (fun tag => In tag (tagsOf FOOD_TYPE_KEYWORDS)) (foodTypes r)
  /\ Forall (fun tag => In tag (tagsOf PREP_KEYWORDS)) (prepMethods r)
  /\ In (heat r) (lit "none" :: tagsOf HEAT_KEYWORDS).
Proof.
  intros r. subst r. unfold parseWithKeywords. cbv [taste_ingredients cuisines dietary
    healthGoals foodTypes prepMethods heat].
  split; [reflexivity|]. split; [exact isIngredient_true_iff|].
  split.
  { apply Forall_forall. intros w H. apply filter_In in H as (_ & H).
    now apply isIngredient_true_iff in H. }
  repeat (split; [apply detectTags_tagsOf|]).
  apply detectHeat_levels.
Qed.

End ParserProperties.

(** ** The relevance scorer *)

Section ScorerProperties.

Variable toLowerCase : jsstring -> jsstring.

(** C2.  The score of a meal is never below 0: it is the larger of 0 and
    the sum of the additive signals and the penalties. *)
Theorem score_floor
    (mealItem : MenuItem) (tasteAttributes : TasteAttributes) (userPreferences : UserPreferences) :
  (0 <= scoreMealAgainstTaste toLowerCase mealItem tasteAttributes userPreferences)%Z
  /\ scoreMealAgainstTaste toLowerCase mealItem tasteAttributes userPreferences
     = Z.max 0 (scoreBeforeFloor toLowerCase mealItem tasteAttributes userPreferences).
Proof.
  split; [apply Z.le_max_l | reflexivity].
Qed.

(** C10.  Two attribute values that differ at most in their heat give a
    meal the same score. *)
Theorem heat_noninterference
    (mealItem : MenuItem) (userPreferences : UserPreferences) (t1 t2 : TasteAttributes) :
  cuisines t1 = cuisines t2 ->
  dietary t1 = dietary t2 ->
  healthGoals t1 = healthGoals t2 ->
  foodTypes t1 = foodTypes t2 ->
  prepMethods t1 = prepMethods t2 ->
  taste_ingredients t1 = taste_ingredients t2 ->
  restrictions t1 = restrictions t2 ->
  confidence t1 = confidence t2 ->
  scoreMealAgainstTaste toLowerCase mealItem t1 userPreferences
  = scoreMealAgainstTaste toLowerCase mealItem t2 userPreferences.
Proof.
  intros Hc _ Hh Hf Hp Hi _ _.
  unfold scoreMealAgainstTaste, scoreBeforeFloor.
  now rewrite Hc, Hh, Hf, Hp, Hi.
Qed.

End ScorerProperties.

(** A meal whose text names a configured allergen and none of the
    required diets: the sum is negative and the score is 0. *)
Example score_floor_reached :
  let prefs := {| allergies := Some [lit "Rice"]; dietaryRestrictions := Some [lit "vegan"] |} in
  scoreBeforeFloor toLowerCase_ascii vegetarianOnlyItem
    (keywordStrategy (lit "grilled vegetables")) prefs = (-1100)%Z
  /\ scoreMealAgainstTaste toLowerCase_ascii vegetarianOnlyItem
       (keywordStrategy (lit "grilled vegetables")) prefs = 0%Z.
Proof. vm_compute. split; reflexivity. Qed.

(** ** The restaurant-level aggregation *)

Lemma round_comp (x y : Q) : x == y -> round x = round y.
Proof.
  intro H. unfold round. apply Qfloor_comp. now rewrite H.
Qed.

Lemma round_nonneg (x : Q) : 0 <= x -> (0 <= round x)%Z.
Proof.
  intro H. unfold round.
  change 0%Z with (Qfloor 0). apply Qfloor_resp_le.
  apply Qle_trans with (y := x); [assumption|].
  rewrite <- (Qplus_0_r x) at 1. apply Qplus_le_r. discriminate.
Qed.

Lemma Qplus_nonneg (a b : Q) : 0 <= a -> 0 <= b -> 0 <= a + b.
Proof.
  intros Ha Hb. exact (Qplus_le_compat 0 a 0 b Ha Hb).
Qed.

Lemma inject_nat_nonneg (n : nat) : 0 <= inject_Z (Z.of_nat n).
Proof.
  change 0 with (inject_Z 0). rewrite <- Zle_Qle. apply Nat2Z.is_nonneg.
Qed.

Section AggregationProperties.

Variable toLowerCase : jsstring -> jsstring.

(** The accumulating loop adds the points once per tag found. *)
Lemma addPerMatchQ_count (text : jsstring) (tags : list jsstring) (points score_ : Q) :
  addPerMatchQ text tags points score_
  == score_ + points * inject_Z (Z.of_nat (countFound text tags)).
Proof.
  unfold addPerMatchQ, countFound.
  assert (G : forall acc,
             fold_left (fun acc tag => if includes text tag then acc + points else acc) tags acc
             == acc + points
                      * inject_Z (Z.of_nat (List.length
                                              (List.filter (fun tag => includes text tag) tags)))).
  { induction tags as [|tag tags IH]; intros acc; simpl.
    - change (inject_Z 0) with 0. ring.
    - rewrite IH. destruct (includes text tag); [|reflexivity].
      cbn [List.length]. rewrite Nat2Z.inj_succ. unfold Z.succ.
      rewrite inject_Z_plus. change (inject_Z 1) with 1. ring. }
  destruct tags as [|tag tags].
  - simpl. change (inject_Z 0) with 0. ring.
  - change (0 <? List.length (tag :: tags))%nat with true. cbv iota. apply G.
Qed.

Lemma ratingAbove4_term (restaurant : Restaurant) (score_ : Q) :
  (if ratingAbove4 restaurant then score_ + 10 else score_)
  == score_ + match rating restaurant with
              | Some r => if Qlt_le_dec 4 r then 10 else 0
              | None => 0
              end.
Proof.
  unfold ratingAbove4. destruct (rating restaurant) as [r|]; [|ring].
  destruct (Qlt_le_dec 4 r) as [Hlt | Hle].
  - assert (A : Qle_bool r 4 = false).
    { destruct (Qle_bool r 4) eqn:E; [|reflexivity].
      apply Qle_bool_iff in E. exfalso. now apply (Qlt_not_le 4 r). }
    assert (B : Qeq_bool r 0 = false).
    { destruct (Qeq_bool r 0) eqn:E; [|reflexivity].
      apply Qeq_bool_iff in E. rewrite E in Hlt. discriminate. }
    rewrite A, B. reflexivity.
  - assert (A : Qle_bool r 4 = true) by now apply Qle_bool_iff.
    rewrite A, andb_false_r. ring.
Qed.

Lemma scoreBeforeRound_formula
    (restaurant : Restaurant) (tasteAttributes : TasteAttributes) (meals : list ScoredMenuItem) :
  scoreBeforeRound toLowerCase restaurant tasteAttributes meals
  == matchScoreFormula toLowerCase restaurant tasteAttributes meals.
Proof.
  unfold scoreBeforeRound, matchScoreFormula. cbv zeta.
  rewrite ratingAbove4_term, addPerMatchQ_count.
  destruct meals as [|top rest]; rewrite addPerMatchQ_count; ring.
Qed.

Lemma matchScoreFormula_nonneg
    (restaurant : Restaurant) (tasteAttributes : TasteAttributes) (meals : list ScoredMenuItem) :
  Forall (fun m => (0 <= score m)%Z) meals ->
  0 <= matchScoreFormula toLowerCase restaurant tasteAttributes meals.
Proof.
  intro Hm. unfold matchScoreFormula. cbv zeta.
  repeat apply Qplus_nonneg.
  - apply Qmult_le_0_compat; [discriminate | apply inject_nat_nonneg].
  - apply Qmult_le_0_compat; [discriminate | apply inject_nat_nonneg].
  - destruct meals as [|top rest]; [apply Qle_refl|].
    inversion Hm as [|? ? Htop _]; subst.
    apply Q.min_glb; [|discriminate].
    unfold Qdiv. apply Qmult_le_0_compat; [|discriminate].
    change 0 with (inject_Z 0). now rewrite <- Zle_Qle.
  - destruct (rating restaurant) as [r|]; [|apply Qle_refl].
    destruct (Qlt_le_dec 4 r); [discriminate | apply Qle_refl].
Qed.

(** C9.  The match score of a restaurant is the rounding of: 30 for each
    requested cuisine tag and 20 for each requested dietary tag that
    occurs in the lower-cased restaurant name joined with its dietary
    options, the smaller of a tenth of the first meal's score and 40 when
    there is a meal, and 10 when the rating exceeds 4; with meal scores
    and rating that are not negative the result is not negative. *)
Theorem restaurant_match_score
    (restaurant : Restaurant) (tasteAttributes : TasteAttributes) (meals : list ScoredMenuItem) :
  calculateRestaurantMatchScore toLowerCase restaurant tasteAttributes meals
  = round (matchScoreFormula toLowerCase restaurant tasteAttributes meals)
  /\ (Forall (fun m => (0 <= score m)%Z) meals ->
      (forall r, rating restaurant = Some r -> 0 <= r) ->
      (0 <= calculateRestaurantMatchScore toLowerCase restaurant tasteAttributes meals)%Z).
Proof.
  unfold calculateRestaurantMatchScore. split.
  - apply round_comp, scoreBeforeRound_formula.
  - intros Hm _. rewrite (round_comp _ _ (scoreBeforeRound_formula restaurant tasteAttributes meals)).
    now apply round_nonneg, matchScoreFormula_nonneg.
Qed.

End AggregationProperties.

(** ** The scenarios *)

(** An item labeled vegetarian only passes a pescetarian requirement. *)
Lemma vegetarian_only_passes_pescetarian :
  dietary_labels vegetarianOnlyItem = Some [lit "vegetarian"]
  /\ available vegetarianOnlyItem = Some true
  /\ In vegetarianOnlyItem
       (filterItemsByPreferences toLowerCase_ascii [vegetarianOnlyItem] [] [lit "pescetarian"]).
Proof. split; [reflexivity | split; [reflexivity | left; reflexivity]]. Qed.

(** C4, as the code has it.  With no allergens configured and
    pescetarian as the only required tag, an item that is not marked
    unavailable and whose labels are exactly vegetarian is kept: the
    vegetarian label satisfies pescetarian by itself, the vegan label is
    not needed. *)
Theorem vegetarian_satisfies_pescetarian (items : list MenuItem) (item : MenuItem) :
  In item items ->
  dietary_labels item = Some [lit "vegetarian"] ->
  available item <> Some false ->
  In item (filterItemsByPreferences toLowerCase_ascii items [] [lit "pescetarian"]).
Proof.
  intros Hin Hlabels Havail. unfold filterItemsByPreferences.
  apply filter_In. split; [assumption|].
  apply keepItem_true_iff. split; [|split; [|assumption]].
  - intros (a & b & [] & _).
  - intros tag [<- | []]. right. right. split; [reflexivity|].
    right. exists (lit "vegetarian"). rewrite Hlabels. split; [now left | reflexivity].
Qed.

Lemma vegetarian_satisfies_pescetarian_witness :
  In vegetarianOnlyItem [vegetarianOnlyItem]
  /\ dietary_labels vegetarianOnlyItem = Some [lit "vegetarian"]
  /\ available vegetarianOnlyItem <> Some false
  /\ In vegetarianOnlyItem
       (filterItemsByPreferences toLowerCase_ascii [vegetarianOnlyItem] [] [lit "pescetarian"]).
Proof.
  assert (A : In vegetarianOnlyItem [vegetarianOnlyItem]) by (left; reflexivity).
  assert (B : dietary_labels vegetarianOnlyItem = Some [lit "vegetarian"]) by reflexivity.
  assert (C : available vegetarianOnlyItem <> Some false) by discriminate.
  split; [exact A | split; [exact B | split; [exact C|]]].
  exact (vegetarian_satisfies_pescetarian [vegetarianOnlyItem] vegetarianOnlyItem A B C).
Defined.

(** The taco of the specification scores 0 against its own query, not 55
    or more. *)
Lemma spicy_veggie_taco_below_55 :
  ~ (55 <= scoreMealAgainstTaste toLowerCase_ascii spicyVeggieTaco
             (keywordStrategy (lit "spicy vegetarian tacos")) noPreferences)%Z.
Proof. vm_compute. intro H. now apply H. Qed.

(** C5, as the code has it.  The query parses to cuisine mexican, heat
    spicy, diet vegetarian and food type tacos; the searched text of the
    item is its lower-cased name followed by two spaces, in which neither
    tag occurs, so nothing is added; no penalty is subtracted; the score
    is 0. *)
Theorem spicy_veggie_taco_score :
  let attrs := keywordStrategy (lit "spicy vegetarian tacos") in
  let text := itemTextOf toLowerCase_ascii spicyVeggieTaco in
  cuisines attrs = [lit "mexican"]
  /\ heat attrs = lit "spicy"
  /\ dietary attrs = [lit "vegetarian"]
  /\ foodTypes attrs = [lit "tacos"]
  /\ text = lit "spicy veggie taco  "
  /\ includes text (lit "mexican") = false
  /\ includes text (lit "tacos") = false
  /\ (forall s, subAllergens toLowerCase_ascii text noPreferences s = s)
  /\ (forall s, subDietary toLowerCase_ascii text noPreferences s = s)
  /\ scoreMealAgainstTaste toLowerCase_ascii spicyVeggieTaco attrs noPreferences = 0%Z.
Proof.
  cbv zeta. repeat split; vm_compute; reflexivity.
Qed.

(** ** Instances of the conditional properties *)

Lemma allergen_exclusion_witness :
  [lit "soy"] <> []
  /\ carriesAllergen toLowerCase_ascii veganOnlyItem [lit "soy"]
  /\ ~ In veganOnlyItem
         (filterItemsByPreferences toLowerCase_ascii
            [vegetarianOnlyItem; veganOnlyItem] [lit "soy"] [lit "vegetarian"]).
Proof.
  assert (A : [lit "soy"] <> []) by discriminate.
  assert (B : carriesAllergen toLowerCase_ascii veganOnlyItem [lit "soy"]).
  { exists (lit "soy"), (lit "Soy"). repeat split; now left. }
  split; [exact A | split; [exact B|]].
  exact (allergen_exclusion toLowerCase_ascii
           [vegetarianOnlyItem; veganOnlyItem] [lit "soy"] [lit "vegetarian"] veganOnlyItem A B).
Defined.

Lemma dietary_requirements_met_witness :
  [lit "Vegetarian"] <> []
  /\ In veganOnlyItem
       (filterItemsByPreferences toLowerCase_ascii
          [vegetarianOnlyItem; veganOnlyItem] [] [lit "Vegetarian"])
  /\ satisfiesTag toLowerCase_ascii veganOnlyItem (lit "Vegetarian").
Proof.
  assert (A : [lit "Vegetarian"] <> []) by discriminate.
  assert (B : In veganOnlyItem
                (filterItemsByPreferences toLowerCase_ascii
                   [vegetarianOnlyItem; veganOnlyItem] [] [lit "Vegetarian"])).
  { right. left. reflexivity. }
  split; [exact A | split; [exact B|]].
  apply (dietary_requirements_met toLowerCase_ascii
           [vegetarianOnlyItem; veganOnlyItem] [] [lit "Vegetarian"] veganOnlyItem A B).
  left. reflexivity.
Defined.

Lemma parseTasteQuery_confidence_witness :
  forallb is_space (lit "   ") = true
  /\ confidence (keywordStrategy (lit "   ")) = 0
  /\ forallb is_space (lit " spicy tacos") = false
  /\ confidence (keywordStrategy (lit " spicy tacos")) = 1 # 2.
Proof.
  assert (A : forallb is_space (lit "   ") = true) by reflexivity.
  assert (B : forallb is_space (lit " spicy tacos") = false) by reflexivity.
  split; [exact A | split; [| split; [exact B|]]].
  - exact (proj2 (proj2 (proj2 (proj2 (proj2 (proj2 (proj2 (proj2
             (proj1 (parseTasteQuery_confidence toLowerCase_ascii (fun _ => None) (lit "   "))
                    A false))))))))).
  - exact (proj1 (proj2
             (proj1 (proj2 (parseTasteQuery_confidence toLowerCase_ascii (fun _ => None)
                              (lit " spicy tacos"))) B))).
Defined.

Lemma restaurant_match_score_witness :
  let meals := [ {| meal := spicyVeggieTaco; score := 55; matchReasons := [] |} ] in
  let attrs := keywordStrategy (lit "spicy vegetarian tacos") in
  Forall (fun m => (0 <= score m)%Z) meals
  /\ (forall r, rating cantina = Some r -> 0 <= r)
  /\ calculateRestaurantMatchScore toLowerCase_ascii cantina attrs meals = 46%Z
  /\ (0 <= calculateRestaurantMatchScore toLowerCase_ascii cantina attrs meals)%Z.
Proof.
  intros meals attrs.
  assert (A : Forall (fun m => (0 <= score m)%Z) meals).
  { constructor; [discriminate | constructor]. }
  assert (B : forall r, rating cantina = Some r -> 0 <= r).
  { intros r E. injection E as <-. discriminate. }
  split; [exact A | split; [exact B | split; [reflexivity|]]].
  exact (proj2 (restaurant_match_score toLowerCase_ascii cantina attrs meals) A B).
Defined.

Lemma heat_noninterference_witness :
  let mildAttrs := keywordStrategy (lit "mild grilled vegetables") in
  let spicyAttrs := keywordStrategy (lit "spicy grilled vegetables") in
  heat mildAttrs <> heat spicyAttrs
  /\ scoreMealAgainstTaste toLowerCase_ascii vegetarianOnlyItem mildAttrs noPreferences
     = scoreMealAgainstTaste toLowerCase_ascii vegetarianOnlyItem spicyAttrs noPreferences.
Proof.
  intros mildAttrs spicyAttrs. split; [vm_compute; discriminate|].
  apply heat_noninterference; vm_compute; reflexivity.
Defined.

(** ** More on the preference filter *)

Section FilterMore.

Variable toLowerCase : jsstring -> jsstring.

Lemma carriesAllergen_app (item : MenuItem) (a a' : list jsstring) :
  carriesAllergen toLowerCase item (a ++ a')
  <-> carriesAllergen toLowerCase item a \/ carriesAllergen toLowerCase item a'.
Proof.
  unfold carriesAllergen. split.
  - intros (x & b & Hx & Hb & E). apply in_app_or in Hx as [Hx | Hx];
      [left | right]; now exists x, b.
  - intros [(x & b & Hx & Hb & E) | (x & b & Hx & Hb & E)]; exists x, b;
      (split; [apply in_or_app; tauto | tauto]).
Qed.

Lemma keepItem_app (a a' d d' : list jsstring) (item : MenuItem) :
  keepItem toLowerCase (a ++ a') (d ++ d') item
  = keepItem toLowerCase a d item && keepItem toLowerCase a' d' item.
Proof.
  apply eq_true_iff_eq. rewrite andb_true_iff, !keepItem_true_iff, carriesAllergen_app.
  split.
  - intros (HA & HD & Hav). repeat split; try tauto; intros tag Ht; apply HD, in_or_app; tauto.
  - intros ((HA & HD & Hav) & (HA' & HD' & _)). repeat split; try tauto.
    intros tag Ht. apply in_app_or in Ht as [Ht | Ht]; auto.
Qed.

Lemma filter_twice {A : Type} (p q : A -> bool) (l : list A) :
  List.filter q (List.filter p l) = List.filter (fun x => p x && q x) l.
Proof.
  induction l as [|x l IH]; [reflexivity|]. simpl.
  destruct (p x); simpl; [destruct (q x)|]; now rewrite IH.
Qed.

Lemma filter_In_iff
    (items : list MenuItem) (configured required : list jsstring) (item : MenuItem) :
  In item (filterItemsByPreferences toLowerCase items configured required)
  <-> In item items /\ keepItem toLowerCase configured required item = true.
Proof. unfold filterItemsByPreferences. apply filter_In. Qed.

(** X1.  The output of the filter is exactly the items of the input that
    carry no configured allergen, satisfy every required tag and are not
    marked unavailable. *)
Theorem filter_membership
    (items : list MenuItem) (configured required : list jsstring) (item : MenuItem) :
  In item (filterItemsByPreferences toLowerCase items configured required)
  <-> In item items
      /\ ~ carriesAllergen toLowerCase item configured
      /\ (forall tag, In tag required -> satisfiesTag toLowerCase item tag)
      /\ available item <> Some false.
Proof.
  rewrite filter_In_iff, keepItem_true_iff. tauto.
Qed.

(** X2.  Filtering an already filtered list with further allergens and
    further required tags gives what one pass with the joined lists
    gives. *)
Theorem filter_two_passes
    (items : list MenuItem) (a a' d d' : list jsstring) :
  filterItemsByPreferences toLowerCase
    (filterItemsByPreferences toLowerCase items a d) a' d'
  = filterItemsByPreferences toLowerCase items (a ++ a') (d ++ d').
Proof.
  unfold filterItemsByPreferences. rewrite filter_twice.
  apply filter_ext. intro item. symmetry. apply keepItem_app.
Qed.

Lemma carriesAllergen_lowered (item : MenuItem) (a : list jsstring) :
  carriesAllergen toLowerCase item a
  <-> exists b, In b (or_empty (allergens item))
                /\ In (toLowerCase b) (List.map toLowerCase a).
Proof.
  unfold carriesAllergen. split.
  - intros (x & b & Hx & Hb & E). exists b. split; [assumption|].
    rewrite <- E. now apply in_map.
  - intros (b & Hb & H). apply in_map_iff in H as (x & E & Hx). now exists x, b.
Qed.

Lemma satisfiesTag_lowered (item : MenuItem) (tag tag' : jsstring) :
  toLowerCase tag = toLowerCase tag' ->
  satisfiesTag toLowerCase item tag -> satisfiesTag toLowerCase item tag'.
Proof.
  unfold satisfiesTag. now intros ->.
Qed.

(** X3.  Only the set of lower-cased tags matters: two allergen lists
    with the same lower-cased tags and two required lists with the same
    lower-cased tags, in any order, case and multiplicity, select the
    same items. *)
Theorem filter_tags_as_sets
    (items : list MenuItem) (a a' d d' : list jsstring) :
  (forall t, In t (List.map toLowerCase a) <-> In t (List.map toLowerCase a')) ->
  (forall t, In t (List.map toLowerCase d) <-> In t (List.map toLowerCase d')) ->
  filterItemsByPreferences toLowerCase items a d
  = filterItemsByPreferences toLowerCase items a' d'.
Proof.
  intros Ha Hd. unfold filterItemsByPreferences. apply filter_ext. intro item.
  apply eq_true_iff_eq. rewrite !keepItem_true_iff, !carriesAllergen_lowered.
  assert (D : forall l l',
             (forall t, In t (List.map toLowerCase l) -> In t (List.map toLowerCase l')) ->
             (forall tag, In tag l' -> satisfiesTag toLowerCase item tag) ->
             forall tag, In tag l -> satisfiesTag toLowerCase item tag).
  { intros l l' Hl H tag Ht.
    assert (M : In (toLowerCase tag) (List.map toLowerCase l')) by now apply Hl, in_map.
    apply in_map_iff in M as (tag' & E & Ht').
    apply (satisfiesTag_lowered item tag' tag E). now apply H. }
  split; intros (HA & HD & Hav); (split; [|split; [|assumption]]).
  - intros (b & Hb & H). apply HA. exists b. split; [assumption | now apply Ha].
  - apply (D d' d); [intros t; apply Hd | assumption].
  - intros (b & Hb & H). apply HA. exists b. split; [assumption | now apply Ha].
  - apply (D d d'); [intros t; apply Hd | assumption].
Qed.

(** X4.  Vegan covers the whole chain: an item of the input that carries
    no configured allergen, is not marked unavailable and has a label
    that lower-cases to vegan is kept whenever every required tag
    lower-cases to vegan, vegetarian or pescetarian. *)
Theorem vegan_satisfies_chain
    (items : list MenuItem) (configured required : list jsstring) (item : MenuItem) :
  In item items ->
  ~ carriesAllergen toLowerCase item configured ->
  available item <> Some false ->
  hasLabel toLowerCase item (lit "vegan") ->
  (forall tag, In tag required ->
               toLowerCase tag = lit "vegan" \/ toLowerCase tag = lit "vegetarian"
               \/ toLowerCase tag = lit "pescetarian") ->
  In item (filterItemsByPreferences toLowerCase items configured required).
Proof.
  intros Hin HA Hav Hv Hreq. apply filter_In_iff. split; [assumption|].
  apply keepItem_true_iff. repeat split; try assumption.
  intros tag Ht. unfold satisfiesTag.
  destruct (Hreq tag Ht) as [E | [E | E]]; rewrite E; tauto.
Qed.

(** X5.  The implication does not run backwards: an item all of whose
    labels lower-case to vegetarian is dropped as soon as a required tag
    lower-cases to vegan. *)
Theorem vegetarian_does_not_satisfy_vegan
    (items : list MenuItem) (configured required : list jsstring) (item : MenuItem)
    (tag : jsstring) :
  (forall l, In l (or_empty (dietary_labels item)) -> toLowerCase l = lit "vegetarian") ->
  In tag required ->
  toLowerCase tag = lit "vegan" ->
  ~ In item (filterItemsByPreferences toLowerCase items configured required).
Proof.
  intros Hl Ht E H. apply filter_In_iff in H as (_ & H).
  apply keepItem_true_iff in H as (_ & HD & _).
  specialize (HD tag Ht). unfold satisfiesTag, hasLabel in HD. rewrite E in HD.
  destruct HD as [(x & Hx & Ex) | [(Ev & _) | (Ep & _)]].
  - rewrite (Hl x Hx) in Ex. vm_compute in Ex. discriminate.
  - vm_compute in Ev. discriminate.
  - vm_compute in Ep. discriminate.
Qed.

End FilterMore.

(** ** More on the keyword parser *)

Lemma distinctb_NoDup (l : list jsstring) : distinctb l = true -> NoDup l.
Proof.
  induction l as [|x l IH]; simpl; intro H; constructor.
  - apply andb_true_iff in H as (H & _). apply negb_true_iff in H.
    intro Hin. apply arr_includes_In in Hin. congruence.
  - apply IH. now apply andb_true_iff in H as (_ & H).
Qed.

Lemma NoDup_map_fst_filter {A B : Type} (p : A * B -> bool) (l : list (A * B)) :
  NoDup (List.map fst l) -> NoDup (List.map fst (List.filter p l)).
Proof.
  induction l as [|e l IH]; simpl; intro H; [constructor|].
  inversion H as [|? ? Hnot Hrest]; subst.
  destruct (p e); simpl; [|now apply IH].
  constructor; [|now apply IH].
  intro Hin. apply Hnot. apply in_map_iff in Hin as (e' & E & He').
  apply filter_In in He' as (He' & _). apply in_map_iff. now exists e'.
Qed.

Lemma detectTags_NoDup (table : KeywordTable) (query : jsstring) :
  distinctb (tagsOf table) = true -> NoDup (detectTags table query []).
Proof.
  intro H. rewrite detectTags_filter. simpl.
  apply NoDup_map_fst_filter. now apply distinctb_NoDup.
Qed.

Lemma occursIn_trans (a b c : jsstring) : occursIn a b -> occursIn b c -> occursIn a c.
Proof.
  intros (p & r & ->) (p' & r' & ->). exists (p' ++ p), (r ++ r').
  now rewrite <- !app_assoc.
Qed.

Lemma hit_mono (keywords : list jsstring) (s s' : jsstring) :
  occursIn s s' -> hit keywords s -> hit keywords s'.
Proof.
  intros Hs (kw & Hin & H). exists kw. split; [assumption|].
  now apply occursIn_trans with (b := s).
Qed.

Lemma detectTags_mono (table : KeywordTable) (query query' tag : jsstring) :
  occursIn query query' ->
  In tag (detectTags table query []) -> In tag (detectTags table query' []).
Proof.
  intros Hq H. apply detectTags_In in H as (k & Hk & Hh).
  apply detectTags_In. exists k. split; [assumption | now apply hit_mono with (s := query)].
Qed.

Lemma interleave_occursIn (pieces separators : list jsstring) (piece : jsstring) :
  S (List.length separators) = List.length pieces ->
  In piece pieces -> occursIn piece (interleave pieces separators).
Proof.
  revert separators. induction pieces as [|p pieces IH]; intros seps Hlen Hin; [contradiction|].
  destruct seps as [|sep seps].
  - destruct pieces; [|discriminate]. destruct Hin as [<- | []].
    simpl. exists [], []. now rewrite app_nil_r.
  - simpl. destruct Hin as [<- | Hin].
    + now exists [], (sep ++ interleave pieces seps).
    + simpl in Hlen. injection Hlen as Hlen.
      destruct (IH seps Hlen Hin) as (a & b & E).
      exists (p ++ sep ++ a), b. rewrite E. now rewrite <- !app_assoc.
Qed.

Lemma split_ws_occursIn (s tok : jsstring) : In tok (split_ws s) -> occursIn tok s.
Proof.
  intro H. destruct (split_ws_interleave s) as (seps & Hlen & _ & E).
  rewrite <- E at 1. now apply interleave_occursIn.
Qed.

Section ParserMore.

Variable toLowerCase : jsstring -> jsstring.

(** X6.  A tag is in a set field exactly when its table lists it with a
    trigger that occurs somewhere in the lower-cased query; this holds
    for cuisines, dietary labels, health goals, food types and
    preparation methods alike. *)
Theorem tag_detected_iff_trigger_occurs (tasteQuery tag : jsstring) :
  let r := parseWithKeywords toLowerCase tasteQuery in
  let query := toLowerCase tasteQuery in
  let listed table := exists keywords, In (tag, keywords) table /\ hit keywords query in
  (In tag (cuisines r) <-> listed CUISINE_KEYWORDS)
  /\ (In tag (dietary r) <-> listed DIETARY_KEYWORDS)
  /\ (In tag (healthGoals r) <-> listed HEALTH_GOALS_KEYWORDS)
  /\ (In tag (foodTypes r) <-> listed FOOD_TYPE_KEYWORDS)
  /\ (In tag (prepMethods r) <-> listed PREP_KEYWORDS).
Proof.
  cbv zeta. unfold parseWithKeywords. cbv [cuisines dietary healthGoals foodTypes prepMethods].
  repeat split; apply detectTags_In.
Qed.

(** X7.  No set field holds a tag twice. *)
Theorem set_fields_without_duplicates (tasteQuery : jsstring) :
  let r := parseWithKeywords toLowerCase tasteQuery in
  NoDup (cuisines r) /\ NoDup (dietary r) /\ NoDup (healthGoals r)
  /\ NoDup (foodTypes r) /\ NoDup (prepMethods r).
Proof.
  cbv zeta. unfold parseWithKeywords. cbv [cuisines dietary healthGoals foodTypes prepMethods].
  repeat split; apply detectTags_NoDup; vm_compute; reflexivity.
Qed.

(** X8.  A longer query keeps every tag: when the lower-cased text of one
    query occurs inside that of another, each set field of the first is
    included in the same field of the second. *)
Theorem tags_grow_with_query (q q' tag : jsstring) :
  occursIn (toLowerCase q) (toLowerCase q') ->
  let r := parseWithKeywords toLowerCase q in
  let r' := parseWithKeywords toLowerCase q' in
  (In tag (cuisines r) -> In tag (cuisines r'))
  /\ (In tag (dietary r) -> In tag (dietary r'))
  /\ (In tag (healthGoals r) -> In tag (healthGoals r'))
  /\ (In tag (foodTypes r) -> In tag (foodTypes r'))
  /\ (In tag (prepMethods r) -> In tag (prepMethods r')).
Proof.
  intro H. cbv zeta. unfold parseWithKeywords.
  cbv [cuisines dietary healthGoals foodTypes prepMethods].
  repeat split; now apply detectTags_mono.
Qed.

(** X9.  Every ingredient is a word of the query: it occurs in the
    lower-cased query, has no white space in it and is longer than two
    code units. *)
Theorem ingredients_are_query_words (tasteQuery w : jsstring) :
  In w (taste_ingredients (parseWithKeywords toLowerCase tasteQuery)) ->
  occursIn w (toLowerCase tasteQuery)
  /\ forallb (fun c => negb (is_space c)) w = true
  /\ (2 < List.length w)%nat.
Proof.
  unfold parseWithKeywords. cbv [taste_ingredients]. intro H.
  apply filter_In in H as (Hw & Hi). split; [now apply split_ws_occursIn|]. split.
  - pose proof (split_ws_no_space (toLowerCase tasteQuery)) as F.
    rewrite Forall_forall in F. now apply F.
  - now apply isIngredient_true_iff in Hi.
Qed.

End ParserMore.

(** ** More on the relevance scorer *)

Lemma countFound_le_length (text : jsstring) (tags : list jsstring) :
  (countFound text tags <= List.length tags)%nat.
Proof. apply filter_length_le. Qed.

Lemma countFound_pos (text : jsstring) (tags : list jsstring) (tag : jsstring) :
  In tag tags -> includes text tag = true -> (1 <= countFound text tags)%nat.
Proof.
  intros Hin Hinc. unfold countFound.
  assert (F : In tag (List.filter (fun t => includes text t) tags))
    by (apply filter_In; now split).
  destruct (List.filter (fun t => includes text t) tags); [contradiction | simpl; lia].
Qed.

Lemma countFound_0 (text : jsstring) (tags : list jsstring) :
  (forall tag, In tag tags -> includes text tag = false) -> countFound text tags = 0%nat.
Proof.
  intro H. unfold countFound. induction tags as [|t tags IH]; [reflexivity|].
  simpl. rewrite (H t) by now left. apply IH. intros tag Ht. apply H. now right.
Qed.

Lemma addPerMatch_count (text : jsstring) (tags : list jsstring) (points score_ : Z) :
  addPerMatch text tags points score_
  = (score_ + points * Z.of_nat (countFound text tags))%Z.
Proof.
  unfold addPerMatch, countFound.
  assert (G : forall acc,
             fold_left (fun acc tag => if includes text tag then (acc + points)%Z else acc)
                       tags acc
             = (acc + points
                      * Z.of_nat (List.length
                                    (List.filter (fun tag => includes text tag) tags)))%Z).
  { induction tags as [|tag tags IH]; intros acc; simpl; [lia|].
    rewrite IH. destruct (includes text tag); [|reflexivity].
    cbn [List.length]. lia. }
  destruct tags as [|tag tags]; [simpl; lia|].
  change (0 <? List.length (tag :: tags))%nat with true. cbv iota. apply G.
Qed.

Section ScorerMore.

Variable toLowerCase : jsstring -> jsstring.

Lemma addHealthBoost_closed (text : jsstring) (goals : list jsstring) (score_ : Z) :
  addHealthBoost text goals score_ = (score_ + healthBoost text goals)%Z.
Proof.
  unfold addHealthBoost, healthBoost. destruct goals as [|g goals]; [simpl; lia|].
  change (0 <? List.length (g :: goals))%nat with true. cbv iota zeta.
  destruct (includes text (lit "low fat") || includes text (lit "healthy"));
    destruct (includes text (lit "high protein"));
    destruct (includes text (lit "low sodium")); lia.
Qed.

Lemma healthBoost_bounds (text : jsstring) (goals : list jsstring) :
  (0 <= healthBoost text goals <= 15)%Z.
Proof.
  unfold healthBoost. destruct goals; [lia|].
  destruct (includes text (lit "low fat") || includes text (lit "healthy"));
    destruct (includes text (lit "high protein"));
    destruct (includes text (lit "low sodium")); lia.
Qed.

Lemma subAllergens_closed (text : jsstring) (prefs : UserPreferences) (score_ : Z) :
  subAllergens toLowerCase text prefs score_
  = (score_ - 1000 * Z.of_nat (allergensFound toLowerCase text prefs))%Z.
Proof.
  unfold subAllergens, allergensFound, countFound.
  destruct (allergies prefs) as [al|]; [|simpl; lia].
  assert (G : forall acc,
             fold_left
               (fun acc allergen =>
                  if includes text (toLowerCase allergen) then (acc - 1000)%Z else acc) al acc
             = (acc - 1000
                      * Z.of_nat (List.length
                                    (List.filter (fun t => includes text t)
                                                 (List.map toLowerCase al))))%Z).
  { induction al as [|a al IH]; intros acc; [simpl; lia|].
    cbn [fold_left List.map List.filter]. rewrite IH.
    destruct (includes text (toLowerCase a)); [|reflexivity].
    cbn [List.length]. rewrite Nat2Z.inj_succ. lia. }
  destruct al as [|a al]; [simpl; lia|].
  change (0 <? List.length (a :: al))%nat with true. cbv iota zeta. apply G.
Qed.

Lemma subDietary_closed (text : jsstring) (prefs : UserPreferences) (score_ : Z) :
  subDietary toLowerCase text prefs score_
  = (score_ - (if dietaryUnmet toLowerCase text prefs then 100 else 0))%Z.
Proof.
  unfold subDietary, dietaryUnmet.
  destruct (dietaryRestrictions prefs) as [dr|]; [|simpl; lia].
  destruct dr as [|d dr]; [simpl; lia|].
  change (0 <? List.length (d :: dr))%nat with true. cbv iota zeta.
  cbn [or_empty andb].
  destruct (existsb (fun d0 => includes text (toLowerCase d0)) (d :: dr)); simpl; lia.
Qed.

Lemma scoreBeforeFloor_closed
    (mealItem : MenuItem) (tasteAttributes : TasteAttributes) (prefs : UserPreferences) :
  scoreBeforeFloor toLowerCase mealItem tasteAttributes prefs
  = (additiveScore (itemTextOf toLowerCase mealItem) tasteAttributes
     - 1000 * Z.of_nat (allergensFound toLowerCase (itemTextOf toLowerCase mealItem) prefs)
     - (if dietaryUnmet toLowerCase (itemTextOf toLowerCase mealItem) prefs
        then 100 else 0))%Z.
Proof.
  unfold scoreBeforeFloor, additiveScore. cbv zeta.
  rewrite subDietary_closed, subAllergens_closed, addHealthBoost_closed,
    !addPerMatch_count. lia.
Qed.

Lemma additiveScore_bounds (text : jsstring) (tasteAttributes : TasteAttributes) :
  (0 <= additiveScore text tasteAttributes
   <= 30 * Z.of_nat (List.length (cuisines tasteAttributes))
      + 25 * Z.of_nat (List.length (foodTypes tasteAttributes))
      + 15 * Z.of_nat (List.length (prepMethods tasteAttributes))
      + 10 * Z.of_nat (List.length (taste_ingredients tasteAttributes))
      + 15)%Z.
Proof.
  unfold additiveScore.
  pose proof (healthBoost_bounds text (healthGoals tasteAttributes)).
  pose proof (countFound_le_length text (cuisines tasteAttributes)).
  pose proof (countFound_le_length text (foodTypes tasteAttributes)).
  pose proof (countFound_le_length text (prepMethods tasteAttributes)).
  pose proof (countFound_le_length text (taste_ingredients tasteAttributes)).
  lia.
Qed.

(** X10.  The score is the larger of 0 and: 30, 25, 15 and 10 points for
    each cuisine, food type, preparation method and ingredient found in
    the item text, plus the health boost, minus 1000 for each listed
    allergy found in the text (a repeated allergy counts again), minus
    100 when dietary restrictions are given and none is found in the
    text. *)
Theorem score_closed_form
    (mealItem : MenuItem) (tasteAttributes : TasteAttributes) (prefs : UserPreferences) :
  let text := itemTextOf toLowerCase mealItem in
  scoreMealAgainstTaste toLowerCase mealItem tasteAttributes prefs
  = Z.max 0
      (additiveScore text tasteAttributes
       - 1000 * Z.of_nat (allergensFound toLowerCase text prefs)
       - (if dietaryUnmet toLowerCase text prefs then 100 else 0))%Z.
Proof.
  cbv zeta. unfold scoreMealAgainstTaste. now rewrite scoreBeforeFloor_closed.
Qed.

(** X11.  The score never exceeds 30, 25, 15 and 10 points per requested
    cuisine, food type, preparation method and ingredient, plus 15. *)
Theorem score_upper_bound
    (mealItem : MenuItem) (tasteAttributes : TasteAttributes) (prefs : UserPreferences) :
  (scoreMealAgainstTaste toLowerCase mealItem tasteAttributes prefs
   <= 30 * Z.of_nat (List.length (cuisines tasteAttributes))
      + 25 * Z.of_nat (List.length (foodTypes tasteAttributes))
      + 15 * Z.of_nat (List.length (prepMethods tasteAttributes))
      + 10 * Z.of_nat (List.length (taste_ingredients tasteAttributes))
      + 15)%Z.
Proof.
  unfold scoreMealAgainstTaste. rewrite scoreBeforeFloor_closed.
  pose proof (additiveScore_bounds (itemTextOf toLowerCase mealItem) tasteAttributes).
  destruct (dietaryUnmet toLowerCase (itemTextOf toLowerCase mealItem) prefs); lia.
Qed.

(** X12.  One allergy found in the item text brings the score to 0 as
    long as the attributes cannot add more than 1000 points. *)
Theorem allergen_in_text_zeroes_score
    (mealItem : MenuItem) (tasteAttributes : TasteAttributes) (prefs : UserPreferences)
    (allergen : jsstring) :
  In allergen (or_empty (allergies prefs)) ->
  occursIn (toLowerCase allergen) (itemTextOf toLowerCase mealItem) ->
  (30 * Z.of_nat (List.length (cuisines tasteAttributes))
   + 25 * Z.of_nat (List.length (foodTypes tasteAttributes))
   + 15 * Z.of_nat (List.length (prepMethods tasteAttributes))
   + 10 * Z.of_nat (List.length (taste_ingredients tasteAttributes))
   + 15 <= 1000)%Z ->
  scoreMealAgainstTaste toLowerCase mealItem tasteAttributes prefs = 0%Z.
Proof.
  intros Hin Hocc Hcap. unfold scoreMealAgainstTaste. rewrite scoreBeforeFloor_closed.
  pose proof (additiveScore_bounds (itemTextOf toLowerCase mealItem) tasteAttributes).
  assert (F : (1 <= allergensFound toLowerCase (itemTextOf toLowerCase mealItem) prefs)%nat).
  { unfold allergensFound.
    apply countFound_pos with (tag := toLowerCase allergen);
      [now apply in_map | now apply includes_occursIn]. }
  destruct (dietaryUnmet toLowerCase (itemTextOf toLowerCase mealItem) prefs); lia.
Qed.

(** X13.  The scorer looks for the required diets in the item text, not
    in the item labels: when restrictions are given and none of them,
    lower-cased, occurs in the text, an item that gathers at most 100
    points scores 0, whatever its labels are. *)
Theorem unmet_dietary_text_zeroes_score
    (mealItem : MenuItem) (tasteAttributes : TasteAttributes) (prefs : UserPreferences) :
  or_empty (dietaryRestrictions prefs) <> [] ->
  (forall d, In d (or_empty (dietaryRestrictions prefs)) ->
             ~ occursIn (toLowerCase d) (itemTextOf toLowerCase mealItem)) ->
  (additiveScore (itemTextOf toLowerCase mealItem) tasteAttributes <= 100)%Z ->
  scoreMealAgainstTaste toLowerCase mealItem tasteAttributes prefs = 0%Z.
Proof.
  intros Hne Hnone Hsmall. unfold scoreMealAgainstTaste. rewrite scoreBeforeFloor_closed.
  assert (U : dietaryUnmet toLowerCase (itemTextOf toLowerCase mealItem) prefs = true).
  { unfold dietaryUnmet. destruct (or_empty (dietaryRestrictions prefs)) as [|d dr] eqn:E;
      [contradiction|].
    apply negb_true_iff. destruct (existsb _ (d :: dr)) eqn:X; [|reflexivity].
    apply existsb_exists in X as (x & Hx & Hi). apply includes_occursIn in Hi.
    exfalso. now apply (Hnone x). }
  rewrite U. lia.
Qed.

(** X14.  Which health goal is requested makes no difference: two
    attribute values with the same cuisines, food types, preparation
    methods and ingredients, each with at least one health goal, give a
    meal the same score. *)
Theorem health_goal_identity_irrelevant
    (mealItem : MenuItem) (prefs : UserPreferences) (t1 t2 : TasteAttributes) :
  cuisines t1 = cuisines t2 ->
  foodTypes t1 = foodTypes t2 ->
  prepMethods t1 = prepMethods t2 ->
  taste_ingredients t1 = taste_ingredients t2 ->
  healthGoals t1 <> [] ->
  healthGoals t2 <> [] ->
  scoreMealAgainstTaste toLowerCase mealItem t1 prefs
  = scoreMealAgainstTaste toLowerCase mealItem t2 prefs.
Proof.
  intros Hc Hf Hp Hi H1 H2. unfold scoreMealAgainstTaste.
  rewrite !scoreBeforeFloor_closed. unfold additiveScore, healthBoost.
  rewrite Hc, Hf, Hp, Hi.
  destruct (healthGoals t1); [contradiction|]. destruct (healthGoals t2); [contradiction|].
  reflexivity.
Qed.

End ScorerMore.

(** ** More on the restaurant-level aggregation *)

Lemma round_le_integer (x : Q) (n : Z) : x <= inject_Z n -> (round x <= n)%Z.
Proof.
  intro H. unfold round.
  assert (E : Qfloor (inject_Z n + (1 # 2)) = n).
  { unfold Qfloor, inject_Z, Qplus. cbn [Qnum Qden].
    symmetry. apply Z.div_unique with (r := 1%Z); lia. }
  rewrite <- E at 1. apply Qfloor_resp_le. now apply Qplus_le_l.
Qed.

Section AggregationMore.

Variable toLowerCase : jsstring -> jsstring.

Lemma matchScoreFormula_upper
    (restaurant : Restaurant) (tasteAttributes : TasteAttributes) (meals_ : list ScoredMenuItem) :
  matchScoreFormula toLowerCase restaurant tasteAttributes meals_
  <= inject_Z (30 * Z.of_nat (List.length (cuisines tasteAttributes))
               + 20 * Z.of_nat (List.length (dietary tasteAttributes)) + 50).
Proof.
  unfold matchScoreFormula. cbv zeta.
  rewrite !inject_Z_plus, !inject_Z_mult.
  change (inject_Z 50) with (40 + 10). rewrite Qplus_assoc.
  repeat apply Qplus_le_compat.
  - apply Qmult_le_l; [reflexivity|]. rewrite <- Zle_Qle. apply inj_le, countFound_le_length.
  - apply Qmult_le_l; [reflexivity|]. rewrite <- Zle_Qle. apply inj_le, countFound_le_length.
  - destruct meals_; [discriminate | apply Q.le_min_r].
  - destruct (rating restaurant) as [r|]; [|discriminate].
    destruct (Qlt_le_dec 4 r); [apply Qle_refl | discriminate].
Qed.

(** X15.  The match score of a restaurant is at most 30 per requested
    cuisine plus 20 per requested dietary tag plus 50: the best meal adds
    no more than 40 however high its score, the rating no more than
    10. *)
Theorem restaurant_score_upper_bound
    (restaurant : Restaurant) (tasteAttributes : TasteAttributes) (meals_ : list ScoredMenuItem) :
  (calculateRestaurantMatchScore toLowerCase restaurant tasteAttributes meals_
   <= 30 * Z.of_nat (List.length (cuisines tasteAttributes))
      + 20 * Z.of_nat (List.length (dietary tasteAttributes)) + 50)%Z.
Proof.
  unfold calculateRestaurantMatchScore.
  rewrite (round_comp _ _ (scoreBeforeRound_formula toLowerCase restaurant tasteAttributes meals_)).
  apply round_le_integer, matchScoreFormula_upper.
Qed.

End AggregationMore.

(** ** The comparator sort *)

Lemma In_firstn {A : Type} (n : nat) (l : list A) (x : A) : In x (firstn n l) -> In x l.
Proof.
  intro H. rewrite <- (firstn_skipn n l). apply in_or_app. now left.
Qed.

Lemma In_skipn {A : Type} (n : nat) (l : list A) (x : A) : In x (skipn n l) -> In x l.
Proof.
  intro H. rewrite <- (firstn_skipn n l). apply in_or_app. now right.
Qed.

Section SortDesc.

Context {A : Type} (key : A -> Z).

Lemma insertDesc_perm (x : A) (l : list A) : Permutation (insertDesc key x l) (x :: l).
Proof.
  induction l as [|y l IH]; simpl; [apply Permutation_refl|].
  destruct (key x <? key y)%Z; [|apply Permutation_refl].
  apply Permutation_trans with (l' := y :: x :: l); [now constructor | constructor].
Qed.

Lemma sortDesc_perm (l : list A) : Permutation (sortDesc key l) l.
Proof.
  induction l as [|x l IH]; simpl; [constructor|].
  apply Permutation_trans with (l' := x :: sortDesc key l);
    [apply insertDesc_perm | now constructor].
Qed.

Lemma sortDesc_In (l : list A) (x : A) : In x (sortDesc key l) <-> In x l.
Proof.
  split; apply Permutation_in; [apply sortDesc_perm | apply Permutation_sym, sortDesc_perm].
Qed.

Lemma sortDesc_length (l : list A) : List.length (sortDesc key l) = List.length l.
Proof. apply Permutation_length, sortDesc_perm. Qed.

Lemma insertDesc_sorted (x : A) (l : list A) :
  StronglySorted (descending key) l -> StronglySorted (descending key) (insertDesc key x l).
Proof.
  induction l as [|y l IH]; intro H; simpl.
  - constructor; constructor.
  - inversion H as [|? ? Hl Hy]; subst.
    destruct (key x <? key y)%Z eqn:E.
    + apply Z.ltb_lt in E. constructor; [now apply IH|].
      apply Forall_forall. intros z Hz.
      apply (Permutation_in _ (insertDesc_perm x l)) in Hz. destruct Hz as [<- | Hz].
      * unfold descending. lia.
      * rewrite Forall_forall in Hy. now apply Hy.
    + apply Z.ltb_ge in E. constructor; [assumption|].
      constructor; [exact E|].
      apply Forall_forall. intros z Hz. rewrite Forall_forall in Hy.
      specialize (Hy z Hz). unfold descending in *. lia.
Qed.

Lemma sortDesc_sorted (l : list A) : StronglySorted (descending key) (sortDesc key l).
Proof.
  induction l as [|x l IH]; simpl; [constructor | now apply insertDesc_sorted].
Qed.

(** Elements with the same key keep their order. *)
Lemma insertDesc_stable (k : Z) (x : A) (l : list A) :
  StronglySorted (descending key) l ->
  List.filter (fun a => (key a =? k)%Z) (insertDesc key x l)
  = List.filter (fun a => (key a =? k)%Z) (x :: l).
Proof.
  induction l as [|y l IH]; intro H; [reflexivity|].
  inversion H as [|? ? Hl Hy]; subst. cbn [insertDesc].
  destruct (key x <? key y)%Z eqn:E; [|reflexivity].
  apply Z.ltb_lt in E. cbn [List.filter]. rewrite (IH Hl). cbn [List.filter].
  destruct (key x =? k)%Z eqn:Ex, (key y =? k)%Z eqn:Ey; try reflexivity.
  apply Z.eqb_eq in Ex, Ey. lia.
Qed.

Lemma sortDesc_stable (k : Z) (l : list A) :
  List.filter (fun a => (key a =? k)%Z) (sortDesc key l)
  = List.filter (fun a => (key a =? k)%Z) l.
Proof.
  induction l as [|x l IH]; [reflexivity|].
  cbn [sortDesc fold_right]. fold (sortDesc key l).
  rewrite insertDesc_stable by apply sortDesc_sorted.
  cbn [List.filter]. now rewrite IH.
Qed.

Lemma StronglySorted_split (l : list A) (n : nat) :
  StronglySorted (descending key) l ->
  StronglySorted (descending key) (firstn n l)
  /\ forall a b, In a (firstn n l) -> In b (skipn n l) -> (key b <= key a)%Z.
Proof.
  revert n. induction l as [|x l IH]; intros n H.
  - rewrite firstn_nil, skipn_nil. split; [constructor | intros a b []].
  - destruct n as [|n]; [split; [constructor | intros a b []]|].
    inversion H as [|? ? Hl Hx]; subst. cbn [firstn skipn].
    destruct (IH n Hl) as (S1 & S2). split.
    + constructor; [assumption|]. apply Forall_forall. intros z Hz.
      rewrite Forall_forall in Hx. apply Hx. now apply (In_firstn n).
    + intros a b [<- | Ha] Hb.
      * rewrite Forall_forall in Hx. apply Hx. now apply (In_skipn n).
      * now apply S2.
Qed.

End SortDesc.

(** ** Match reasons *)



Section ReasonsProperties.

Variable toLowerCase : jsstring -> jsstring.

(** X16.  When a cuisine, a food type and an ingredient of the request
    all occur in the meal's name and description, the reasons are these
    three and nothing else: the preparation and dietary reasons are cut
    by the limit of three. *)
Theorem reasons_cut_after_three (meal_ : MenuItem) (tasteAttributes : TasteAttributes) :
  hit (cuisines tasteAttributes) (reasonTextOf toLowerCase meal_) ->
  hit (foodTypes tasteAttributes) (reasonTextOf toLowerCase meal_) ->
  hit (taste_ingredients tasteAttributes) (reasonTextOf toLowerCase meal_) ->
  generateMatchReasons toLowerCase meal_ tasteAttributes
  = [lit "Matches cuisine preference"; lit "Matches food type";
     lit "Contains requested ingredients"].
Proof.
  intros Hc Hf Hi. apply someKeyword_hit in Hc, Hf, Hi. unfold someKeyword in Hc, Hf, Hi.
  unfold generateMatchReasons. cbv zeta. rewrite Hc, Hf, Hi.
  destruct (existsb _ (prepMethods tasteAttributes));
    destruct (dietary_labels meal_) as [labels|];
    try destruct (0 <? List.length labels)%nat; reflexivity.
Qed.

(** X17.  For a meal with dietary labels, the reasons number one more
    than the text signals that matched, up to three; the dietary reason
    comes last when at most two signals matched, and with three or four
    it is cut, the reasons being those of the same meal without
    labels. *)
Theorem dietary_reason_shown_or_cut
    (meal_ : MenuItem) (tasteAttributes : TasteAttributes) (labels : list jsstring) :
  dietary_labels meal_ = Some labels ->
  labels <> [] ->
  let text := reasonTextOf toLowerCase meal_ in
  let n := (Nat.b2n (someKeyword text (cuisines tasteAttributes))
            + Nat.b2n (someKeyword text (foodTypes tasteAttributes))
            + Nat.b2n (someKeyword text (taste_ingredients tasteAttributes))
            + Nat.b2n (someKeyword text (prepMethods tasteAttributes)))%nat in
  let reasons := generateMatchReasons toLowerCase meal_ tasteAttributes in
  let unlabeled :=
    {| name := name meal_; description := description meal_;
       ingredients := ingredients meal_; allergens := allergens meal_;
       dietary_labels := None; available := available meal_ |} in
  List.length reasons = Nat.min 3 (S n)
  /\ ((n <= 2)%nat -> last reasons [] = join (lit ", ") labels ++ lit " option")
  /\ ((3 <= n)%nat -> reasons = generateMatchReasons toLowerCase unlabeled tasteAttributes).
Proof.
  intros Hl Hne. cbv zeta. unfold generateMatchReasons, someKeyword, reasonTextOf.
  cbv zeta. cbn [name description dietary_labels]. rewrite Hl.
  destruct labels as [|l0 labels]; [contradiction|].
  change (0 <? List.length (l0 :: labels))%nat with true. cbv iota.
  destruct (existsb _ (cuisines tasteAttributes));
    destruct (existsb _ (foodTypes tasteAttributes));
    destruct (existsb _ (taste_ingredients tasteAttributes));
    destruct (existsb _ (prepMethods tasteAttributes));
    cbn [Nat.b2n Nat.add app firstn List.length Nat.min last];
    (split; [reflexivity | split; intro; try reflexivity; lia]).
Qed.


End ReasonsProperties.

(** ** Meal curation and restaurant ranking *)

Lemma round_ge_integer (x : Q) (n : Z) : inject_Z n <= x -> (n <= round x)%Z.
Proof.
  intro H. unfold round. rewrite <- (Qfloor_Z n) at 1. apply Qfloor_resp_le.
  apply Qle_trans with (y := x); [assumption|].
  rewrite <- (Qplus_0_r x) at 1. apply Qplus_le_r. discriminate.
Qed.

Section PipelineProperties.

Variable toLowerCase : jsstring -> jsstring.

Lemma generateMatchReasons_length (meal_ : MenuItem) (tasteAttributes : TasteAttributes) :
  (List.length (generateMatchReasons toLowerCase meal_ tasteAttributes) <= 3)%nat.
Proof. unfold generateMatchReasons. cbv zeta. apply firstn_le_length. Qed.

(** X19.  A restaurant is shown at most five meals, in order of
    decreasing score; each comes from an item of its menu that carries no
    configured allergen, satisfies every required tag and is not marked
    unavailable, has a score of at least 0 and at most three reasons. *)
Theorem curated_meals_invariants
    (menuItems : list MenuItem) (tasteAttributes : TasteAttributes)
    (allergies_ dietaryRestrictions_ : list jsstring) :
  let shown := curateMeals toLowerCase menuItems tasteAttributes allergies_ dietaryRestrictions_ in
  (List.length shown <= 5)%nat
  /\ StronglySorted (descending score) shown
  /\ forall m, In m shown ->
       (exists item,
           In item menuItems
           /\ ~ carriesAllergen toLowerCase item allergies_
           /\ (forall tag, In tag dietaryRestrictions_ -> satisfiesTag toLowerCase item tag)
           /\ available item <> Some false
           /\ m = scoredMealOf toLowerCase tasteAttributes allergies_ dietaryRestrictions_ item)
       /\ (0 <= score m)%Z
       /\ (List.length (matchReasons m) <= 3)%nat.
Proof.
  cbv zeta. unfold curateMeals. cbv zeta. split; [apply firstn_le_length|]. split.
  - apply StronglySorted_split, sortDesc_sorted.
  - intros m Hm. apply In_firstn, sortDesc_In, in_map_iff in Hm as (item & <- & Hitem).
    split; [|split].
    + exists item. apply filter_In_iff in Hitem as (Hin & K).
      apply keepItem_true_iff in K. tauto.
    + cbn [score scoredMealOf]. apply Z.le_max_l.
    + cbn [matchReasons scoredMealOf]. apply generateMatchReasons_length.
Qed.

(** X20.  The meals shown are the best of the filtered menu: the scored
    filtered items are the shown meals together with some others, none of
    which scores higher than a shown meal. *)
Theorem shown_meals_are_the_best
    (menuItems : list MenuItem) (tasteAttributes : TasteAttributes)
    (allergies_ dietaryRestrictions_ : list jsstring) :
  exists others,
    Permutation
      (curateMeals toLowerCase menuItems tasteAttributes allergies_ dietaryRestrictions_
         ++ others)
      (List.map (scoredMealOf toLowerCase tasteAttributes allergies_ dietaryRestrictions_)
         (filterItemsByPreferences toLowerCase menuItems allergies_ dietaryRestrictions_))
    /\ forall m o,
         In m (curateMeals toLowerCase menuItems tasteAttributes allergies_ dietaryRestrictions_) ->
         In o others -> (score o <= score m)%Z.
Proof.
  unfold curateMeals. cbv zeta.
  set (scored := List.map _ _).
  exists (skipn 5 (sortDesc score scored)). split.
  - rewrite firstn_skipn. apply sortDesc_perm.
  - apply StronglySorted_split, sortDesc_sorted.
Qed.

Lemma curateMeals_scores_nonneg
    (menuItems : list MenuItem) (tasteAttributes : TasteAttributes)
    (allergies_ dietaryRestrictions_ : list jsstring) :
  Forall (fun m => (0 <= score m)%Z)
    (curateMeals toLowerCase menuItems tasteAttributes allergies_ dietaryRestrictions_).
Proof.
  apply Forall_forall. intros m Hm. unfold curateMeals in Hm. cbv zeta in Hm.
  apply In_firstn, sortDesc_In, in_map_iff in Hm as (item & <- & _).
  cbn [score scoredMealOf]. apply Z.le_max_l.
Qed.

End PipelineProperties.

Section RankingProperties.

Variable toLowerCase : jsstring -> jsstring.

Lemma restaurantWithMeals_meals_nonneg
    (tasteAttributes : TasteAttributes) (allergies_ dietaryRestrictions_ : list jsstring)
    (restaurant : Restaurant) (menu : option (list MenuItem)) :
  Forall (fun m => (0 <= score m)%Z)
    (meals (restaurantWithMeals toLowerCase tasteAttributes allergies_ dietaryRestrictions_
              restaurant menu)).
Proof.
  unfold restaurantWithMeals. cbv zeta. cbn [meals].
  destruct menu; [apply curateMeals_scores_nonneg | constructor].
Qed.

Lemma matchScoreFormula_well_rated
    (restaurant : Restaurant) (tasteAttributes : TasteAttributes) (meals_ : list ScoredMenuItem)
    (r : Q) :
  rating restaurant = Some r -> 4 < r ->
  Forall (fun m => (0 <= score m)%Z) meals_ ->
  inject_Z 10 <= matchScoreFormula toLowerCase restaurant tasteAttributes meals_.
Proof.
  intros Hr Hlt Hm. unfold matchScoreFormula. cbv zeta. rewrite Hr.
  destruct (Qlt_le_dec 4 r) as [_ | Hle]; [|exfalso; now apply (Qlt_not_le 4 r)].
  change (inject_Z 10) with (0 + 10). apply Qplus_le_compat; [|apply Qle_refl].
  repeat apply Qplus_nonneg.
  - apply Qmult_le_0_compat; [discriminate | apply inject_nat_nonneg].
  - apply Qmult_le_0_compat; [discriminate | apply inject_nat_nonneg].
  - destruct meals_ as [|top rest]; [apply Qle_refl|].
    inversion Hm as [|? ? Htop _]; subst.
    apply Q.min_glb; [|discriminate].
    unfold Qdiv. apply Qmult_le_0_compat; [|discriminate].
    change 0 with (inject_Z 0). now rewrite <- Zle_Qle.
Qed.

(** X21.  In the search, the match score of a restaurant is never
    negative, whatever its menu, its rating and the request are. *)
Theorem search_match_score_nonneg
    (tasteAttributes : TasteAttributes) (allergies_ dietaryRestrictions_ : list jsstring)
    (restaurant : Restaurant) (menu : option (list MenuItem)) :
  (0 <= matchScore (restaurantWithMeals toLowerCase tasteAttributes allergies_
                      dietaryRestrictions_ restaurant menu))%Z.
Proof.
  pose proof (restaurantWithMeals_meals_nonneg tasteAttributes allergies_
                dietaryRestrictions_ restaurant menu) as F.
  unfold restaurantWithMeals in *. cbv zeta in *. cbn [matchScore meals] in *.
  unfold calculateRestaurantMatchScore.
  rewrite (round_comp _ _ (scoreBeforeRound_formula toLowerCase restaurant tasteAttributes _)).
  now apply round_nonneg, matchScoreFormula_nonneg.
Qed.

(** X22.  As soon as one item of the menu passes the filter the
    restaurant has meals, and the first of them, the one its match score
    is computed from, scores at least as much as every item that passed
    the filter. *)
Theorem best_meal_leads
    (tasteAttributes : TasteAttributes) (allergies_ dietaryRestrictions_ : list jsstring)
    (restaurant : Restaurant) (menuItems : list MenuItem) (item : MenuItem) :
  In item (filterItemsByPreferences toLowerCase menuItems allergies_ dietaryRestrictions_) ->
  exists top rest,
    meals (restaurantWithMeals toLowerCase tasteAttributes allergies_ dietaryRestrictions_
             restaurant (Some menuItems)) = top :: rest
    /\ (score (scoredMealOf toLowerCase tasteAttributes allergies_ dietaryRestrictions_ item)
        <= score top)%Z.
Proof.
  intro Hin. unfold restaurantWithMeals, curateMeals. cbv zeta. cbn [meals].
  set (scored := List.map _ _).
  assert (Hs : In (scoredMealOf toLowerCase tasteAttributes allergies_ dietaryRestrictions_ item)
                  (sortDesc score scored)).
  { apply sortDesc_In. unfold scored. now apply in_map. }
  pose proof (sortDesc_sorted score scored) as Sorted.
  destruct (sortDesc score scored) as [|top rest]; [contradiction|].
  exists top, (firstn 4 rest). split; [reflexivity|].
  destruct Hs as [<- | Hs]; [lia|].
  inversion Sorted as [|? ? _ Htop]; subst. rewrite Forall_forall in Htop. now apply Htop.
Qed.

Lemma topRestaurants_input_short (l : list RestaurantMatch) :
  (List.length l <= 10)%nat ->
  topRestaurants l
  = sortDesc matchScore
      (List.filter (fun r => (0 <? matchScore r)%Z || (0 <? List.length (meals r))%nat) l).
Proof.
  intro H. unfold topRestaurants. apply firstn_all2.
  rewrite sortDesc_length.
  apply Nat.le_trans with (m := List.length l); [apply filter_length_le | assumption].
Qed.

Lemma searchByTaste_unfold
    (restaurants : list Restaurant) (menuOf : Restaurant -> option (list MenuItem))
    (tasteAttributes : TasteAttributes) (allergies_ dietaryRestrictions_ : list jsstring) :
  searchByTaste toLowerCase restaurants menuOf tasteAttributes allergies_ dietaryRestrictions_
  = sortDesc matchScore
      (List.filter
         (fun r => (0 <? matchScore r)%Z || (0 <? List.length (meals r))%nat)
         (List.map
            (fun restaurant =>
               restaurantWithMeals toLowerCase tasteAttributes allergies_ dietaryRestrictions_
                 restaurant (menuOf restaurant))
            (firstn 10 restaurants))).
Proof.
  unfold searchByTaste. apply topRestaurants_input_short.
  rewrite length_map. apply firstn_le_length.
Qed.

(** X23.  The search returns at most ten restaurants, in order of
    decreasing match score. *)
Theorem search_result_ranked
    (restaurants : list Restaurant) (menuOf : Restaurant -> option (list MenuItem))
    (tasteAttributes : TasteAttributes) (allergies_ dietaryRestrictions_ : list jsstring) :
  let result :=
    searchByTaste toLowerCase restaurants menuOf tasteAttributes allergies_
      dietaryRestrictions_ in
  (List.length result <= 10)%nat /\ StronglySorted (descending matchScore) result.
Proof.
  cbv zeta. split.
  - unfold searchByTaste, topRestaurants. apply firstn_le_length.
  - rewrite searchByTaste_unfold. apply sortDesc_sorted.
Qed.

(** X24.  Only the first ten restaurants found are considered, and of
    those the result holds exactly the ones with a positive match score
    or at least one meal: the final cut to ten removes none of them. *)
Theorem search_result_membership
    (restaurants : list Restaurant) (menuOf : Restaurant -> option (list MenuItem))
    (tasteAttributes : TasteAttributes) (allergies_ dietaryRestrictions_ : list jsstring)
    (rm : RestaurantMatch) :
  In rm (searchByTaste toLowerCase restaurants menuOf tasteAttributes allergies_
           dietaryRestrictions_)
  <-> (exists restaurant,
          In restaurant (firstn 10 restaurants)
          /\ rm = restaurantWithMeals toLowerCase tasteAttributes allergies_
                    dietaryRestrictions_ restaurant (menuOf restaurant))
      /\ ((0 < matchScore rm)%Z \/ meals rm <> []).
Proof.
  rewrite searchByTaste_unfold, sortDesc_In, filter_In, in_map_iff.
  rewrite orb_true_iff, Z.ltb_lt, Nat.ltb_lt.
  assert (L : (0 < List.length (meals rm))%nat <-> meals rm <> []).
  { destruct (meals rm); simpl; split; intro H; try lia; try congruence; try discriminate. }
  rewrite L. split.
  - intros ((r & E & Hr) & H). split; [now exists r | assumption].
  - intros ((r & Hr & E) & H). split; [now exists r | assumption].
Qed.

(** X25.  A rating above 4 is enough to be listed: each of the first ten
    restaurants found whose rating exceeds 4 has a match score of at
    least 10 and is in the result, whatever the taste query and its
    menu. *)
Theorem well_rated_restaurant_listed
    (restaurants : list Restaurant) (menuOf : Restaurant -> option (list MenuItem))
    (tasteAttributes : TasteAttributes) (allergies_ dietaryRestrictions_ : list jsstring)
    (restaurant : Restaurant) (r : Q) :
  In restaurant (firstn 10 restaurants) ->
  rating restaurant = Some r ->
  4 < r ->
  let rm := restaurantWithMeals toLowerCase tasteAttributes allergies_ dietaryRestrictions_
              restaurant (menuOf restaurant) in
  (10 <= matchScore rm)%Z
  /\ In rm (searchByTaste toLowerCase restaurants menuOf tasteAttributes allergies_
              dietaryRestrictions_).
Proof.
  intros Hin Hr Hlt. cbv zeta.
  assert (S10 : (10 <= matchScore
                         (restaurantWithMeals toLowerCase tasteAttributes allergies_
                            dietaryRestrictions_ restaurant (menuOf restaurant)))%Z).
  { pose proof (restaurantWithMeals_meals_nonneg tasteAttributes allergies_
                  dietaryRestrictions_ restaurant (menuOf restaurant)) as F.
    unfold restaurantWithMeals in *. cbv zeta in *. cbn [matchScore meals] in *.
    unfold calculateRestaurantMatchScore.
    rewrite (round_comp _ _ (scoreBeforeRound_formula toLowerCase restaurant tasteAttributes _)).
    apply round_ge_integer. now apply matchScoreFormula_well_rated with (r := r). }
  split; [exact S10|].
  rewrite searchByTaste_unfold. apply sortDesc_In, filter_In. split.
  - apply in_map_iff. now exists restaurant.
  - apply orb_true_iff. left. apply Z.ltb_lt. lia.
Qed.

End RankingProperties.

(** ** Menu normalisation *)

Lemma flattenMenu_concat (categories : list Category) :
  flattenMenu categories
  = List.concat
      (List.map (fun category => List.map menuItemOfProduct (or_empty (products category)))
                categories).
Proof.
  unfold flattenMenu.
  assert (P : forall ps items,
             fold_left (fun items product => items ++ [menuItemOfProduct product]) ps items
             = items ++ List.map menuItemOfProduct ps).
  { induction ps as [|p ps IH]; intro items; simpl; [now rewrite app_nil_r|].
    rewrite IH. now rewrite <- app_assoc. }
  assert (G : forall items,
             fold_left
               (fun items category =>
                  match products category with
                  | Some ps =>
                      fold_left (fun items product => items ++ [menuItemOfProduct product])
                                ps items
                  | None => items
                  end) categories items
             = items
                 ++ List.concat
                      (List.map
                         (fun category =>
                            List.map menuItemOfProduct (or_empty (products category)))
                         categories)).
  { induction categories as [|c cs IH]; intro items; simpl; [now rewrite app_nil_r|].
    rewrite IH. destruct (products c) as [ps|]; simpl.
    - rewrite P. now rewrite <- app_assoc.
    - reflexivity. }
  apply (G []).
Qed.

Section MenuProperties.

Variable toLowerCase : jsstring -> jsstring.

(** X26.  From the raw menu to the filter: the items kept are exactly
    the normalised products, of the categories that have a product
    array, that are not marked unavailable, declare no configured
    allergen and satisfy every required tag; a product without the
    availability field counts as available. *)
Theorem filtered_menu_membership
    (categories : list Category) (configured required : list jsstring) (item : MenuItem) :
  In item (filterItemsByPreferences toLowerCase (flattenMenu categories) configured required)
  <-> exists category ps product,
        In category categories /\ products category = Some ps /\ In product ps
        /\ item = menuItemOfProduct product
        /\ product_available product <> Some false
        /\ ~ carriesAllergen toLowerCase item configured
        /\ (forall tag, In tag required -> satisfiesTag toLowerCase item tag).
Proof.
  unfold filterItemsByPreferences. rewrite filter_In, keepItem_true_iff, flattenMenu_concat.
  rewrite in_concat. split.
  - intros ((l & Hl & Hitem) & HA & HD & Hav).
    apply in_map_iff in Hl as (category & <- & Hc).
    apply in_map_iff in Hitem as (product & <- & Hp).
    destruct (products category) as [ps|] eqn:E; [|contradiction].
    exists category, ps, product. repeat split; try assumption.
    intro U. apply Hav. cbn [available menuItemOfProduct]. now rewrite U.
  - intros (category & ps & product & Hc & E & Hp & -> & Hav & HA & HD).
    split; [|split; [assumption | split; [assumption|]]].
    + exists (List.map menuItemOfProduct ps). split.
      * apply in_map_iff. exists category. split; [now rewrite E | assumption].
      * now apply in_map.
    + cbn [available menuItemOfProduct].
      destruct (product_available product) as [[|]|]; try discriminate. now contradiction Hav.
Qed.

End MenuProperties.

(** ** Duplicate removal *)

Section DeduplicationProperties.

Variable R : Type.
Variable keyOf : R -> jsstring.

Lemma dedupFrom_In (seen : list jsstring) (rs : list R) (r : R) :
  In r (dedupFrom keyOf seen rs)
  <-> exists before after,
        rs = before ++ r :: after
        /\ ~ In (keyOf r) seen
        /\ ~ In (keyOf r) (List.map keyOf before).
Proof.
  revert seen. induction rs as [|x rs IH]; intro seen; cbn [dedupFrom].
  - split; [intros [] | intros (b & a & E & _)]. now destruct b.
  - cbv zeta. destruct (arr_includes seen (keyOf x)) eqn:S.
    + apply arr_includes_In in S. rewrite IH. split.
      * intros (b & a & -> & Hs & Hb). exists (x :: b), a. repeat split; try assumption.
        simpl. intros [E | Hin]; [|contradiction]. apply Hs. now rewrite <- E.
      * intros (b & a & E & Hs & Hb). destruct b as [|y b].
        -- injection E as -> ->. contradiction.
        -- injection E as -> ->. exists b, a. repeat split; try assumption.
           intro Hin. apply Hb. now right.
    + assert (NS : ~ In (keyOf x) seen).
      { intro Hin. apply arr_includes_In in Hin. congruence. }
      cbn [In]. rewrite IH. split.
      * intros [<- | (b & a & -> & Hs & Hb)].
        -- exists [], rs. repeat split; [assumption | intros []].
        -- exists (x :: b), a. repeat split.
           ++ intro Hin. apply Hs. now right.
           ++ simpl. intros [E | Hin]; [|contradiction]. apply Hs. now left.
      * intros (b & a & E & Hs & Hb). destruct b as [|y b].
        -- injection E as -> ->. now left.
        -- injection E as -> ->. right. exists b, a. repeat split.
           ++ simpl. intros [E | Hin]; [|contradiction]. apply Hb. now left.
           ++ intro Hin. apply Hb. now right.
Qed.

Lemma dedupFrom_keys (seen : list jsstring) (rs : list R) :
  NoDup (List.map keyOf (dedupFrom keyOf seen rs))
  /\ forall k, In k (List.map keyOf (dedupFrom keyOf seen rs))
               <-> In k (List.map keyOf rs) /\ ~ In k seen.
Proof.
  revert seen. induction rs as [|x rs IH]; intro seen; cbn [dedupFrom].
  - split; [constructor|]. intro k. simpl. tauto.
  - cbv zeta. destruct (arr_includes seen (keyOf x)) eqn:S.
    + apply arr_includes_In in S. destruct (IH seen) as (N & K). split; [assumption|].
      intro k. rewrite K. simpl. split; [tauto|].
      intros ([E | H] & Hs); [subst k; contradiction | tauto].
    + assert (NS : ~ In (keyOf x) seen).
      { intro Hin. apply arr_includes_In in Hin. congruence. }
      destruct (IH (keyOf x :: seen)) as (N & K). split.
      * cbn [List.map]. constructor; [|assumption].
        intro Hin. apply K in Hin as (_ & Hin). apply Hin. now left.
      * intro k. cbn [List.map In]. rewrite K. simpl.
        destruct (list_eq_dec N.eq_dec (keyOf x) k) as [E | NE].
        -- subst k. tauto.
        -- tauto.
Qed.

(** X27.  After duplicate removal no two restaurants share a key, every
    restaurant kept was in the input, and every key of the input is still
    represented. *)
Theorem dedup_keys_distinct_and_complete (rs : list R) :
  NoDup (List.map keyOf (deduplicateRestaurants keyOf rs))
  /\ (forall r, In r (deduplicateRestaurants keyOf rs) -> In r rs)
  /\ (forall k, In k (List.map keyOf (deduplicateRestaurants keyOf rs))
                <-> In k (List.map keyOf rs)).
Proof.
  unfold deduplicateRestaurants. destruct (dedupFrom_keys [] rs) as (N & K).
  split; [assumption|]. split.
  - intros r H. apply dedupFrom_In in H as (b & a & -> & _). apply in_or_app. right. now left.
  - intro k. rewrite K. simpl. tauto.
Qed.

(** X28.  Of the restaurants with one key it is the first that stays: a
    restaurant is in the result exactly when it stands in the input at a
    place before which no restaurant has its key. *)
Theorem dedup_keeps_first (rs : list R) (r : R) :
  In r (deduplicateRestaurants keyOf rs)
  <-> exists before after,
        rs = before ++ r :: after /\ ~ In (keyOf r) (List.map keyOf before).
Proof.
  unfold deduplicateRestaurants. rewrite dedupFrom_In. split.
  - intros (b & a & E & _ & H). now exists b, a.
  - intros (b & a & E & H). exists b, a. repeat split; [assumption | intros [] | assumption].
Qed.

End DeduplicationProperties.

(** ** The match on the model's answer *)

Lemma fromFirst_Some (c : N) (s t : jsstring) :
  fromFirst c s = Some t ->
  exists before rest, s = before ++ t /\ t = c :: rest /\ ~ In c before.
Proof.
  revert t. induction s as [|x s IH]; intros t H; [discriminate|].
  cbn [fromFirst] in H. destruct (x =? c)%N eqn:E.
  - apply N.eqb_eq in E. subst x. injection H as <-. exists [], s. repeat split. intros [].
  - apply N.eqb_neq in E. destruct (IH t H) as (b & r & -> & -> & Hb).
    exists (x :: b), r. repeat split. intros [F | F]; [now apply E | now apply Hb].
Qed.

Lemma fromFirst_None (c : N) (s : jsstring) : fromFirst c s = None <-> ~ In c s.
Proof.
  induction s as [|x s IH]; cbn [fromFirst]; [split; [intros _ [] | reflexivity]|].
  destruct (x =? c)%N eqn:E.
  - apply N.eqb_eq in E. split; [discriminate | intro H; exfalso; apply H; now left].
  - apply N.eqb_neq in E. rewrite IH. simpl. tauto.
Qed.

Lemma uptoLast_None (c : N) (s : jsstring) : uptoLast c s = None <-> ~ In c s.
Proof.
  induction s as [|x s IH]; cbn [uptoLast]; [split; [intros _ [] | reflexivity]|].
  destruct (uptoLast c s) as [p|].
  - split; [discriminate|]. intro H. exfalso.
    assert (F : ~ In c s) by (intro; apply H; now right).
    apply IH in F. discriminate.
  - destruct (x =? c)%N eqn:E.
    + apply N.eqb_eq in E. split; [discriminate | intro H; exfalso; apply H; now left].
    + apply N.eqb_neq in E. split; [|reflexivity].
      intros _ [F | F]; [now apply E | now apply (proj1 IH)].
Qed.

Lemma uptoLast_Some (c : N) (s p : jsstring) :
  uptoLast c s = Some p ->
  exists body after, p = body ++ [c] /\ s = p ++ after /\ ~ In c after.
Proof.
  revert p. induction s as [|x s IH]; intros p H; [discriminate|].
  cbn [uptoLast] in H. destruct (uptoLast c s) as [q|] eqn:U.
  - injection H as <-. destruct (IH q eq_refl) as (b & a & -> & -> & Ha).
    exists (x :: b), a. repeat split. assumption.
  - destruct (x =? c)%N eqn:E; [|discriminate].
    apply N.eqb_eq in E. subst x. injection H as <-.
    exists [], s. repeat split. now apply uptoLast_None.
Qed.

(** X29.  What the match returns runs from the first opening delimiter
    of the text to its last closing delimiter: nothing before it holds an
    opening delimiter, nothing after it a closing one.  For the model's
    answer the delimiters are the two braces. *)
Theorem match_spans_first_to_last (open close : N) (s m : jsstring) :
  matchDelimited open close s = Some m ->
  exists before body after,
    s = before ++ m ++ after
    /\ m = open :: body ++ [close]
    /\ ~ In open before
    /\ ~ In close after.
Proof.
  unfold matchDelimited. intro H.
  destruct (fromFirst open s) as [t|] eqn:F; [|discriminate].
  destruct (fromFirst_Some open s _ F) as (b & r & -> & -> & Hb).
  destruct (uptoLast close r) as [p|] eqn:U; [|discriminate].
  injection H as <-.
  destruct (uptoLast_Some close r _ U) as (body & a & -> & -> & Ha).
  exists b, body, a. repeat split; assumption.
Qed.

Lemma first_occurrence_suffix (c : N) (before rest a rest' : jsstring) (x : N) :
  before ++ c :: rest = a ++ c :: rest' ->
  ~ In c before ->
  In x rest' -> In x rest.
Proof.
  revert a. induction before as [|y before IH]; intros a E Hb Hx.
  - destruct a as [|z a]; cbn [app] in E.
    + injection E as <-. assumption.
    + injection E as _ ->. apply in_or_app. right. now right.
  - destruct a as [|z a]; cbn [app] in E.
    + injection E as -> _. exfalso. apply Hb. now left.
    + injection E as _ E. apply (IH a E); [|assumption].
      intro Hin. apply Hb. now right.
Qed.

(** X30.  The match fails exactly when no opening delimiter of the text
    is followed, anywhere later, by a closing one. *)
Theorem match_fails_iff (open close : N) (s : jsstring) :
  matchDelimited open close s = None
  <-> ~ exists a b c, s = a ++ [open] ++ b ++ [close] ++ c.
Proof.
  unfold matchDelimited. split.
  - intros H (a & b & c & E).
    destruct (fromFirst open s) as [t|] eqn:F.
    + destruct (fromFirst_Some open s _ F) as (pre & r & Es & -> & Hpre).
      destruct (uptoLast close r) as [p|] eqn:U; [discriminate|].
      apply uptoLast_None in U. apply U.
      apply (first_occurrence_suffix open pre r a (b ++ [close] ++ c) close);
        [now rewrite <- Es, E | assumption|].
      apply in_or_app. right. now left.
    + apply fromFirst_None in F. apply F. rewrite E. apply in_or_app. right. now left.
  - intro H. destruct (fromFirst open s) as [t|] eqn:F; [|reflexivity].
    destruct (fromFirst_Some open s _ F) as (b & r & -> & -> & Hb).
    destruct (uptoLast close r) as [p|] eqn:U; [|reflexivity].
    exfalso. apply H.
    destruct (uptoLast_Some close r _ U) as (body & a & -> & -> & Ha).
    exists b, body, a. cbn [app]. now rewrite <- !app_assoc.
Qed.

(** ** Instances of the further conditional properties *)

Lemma filter_tags_as_sets_witness :
  filterItemsByPreferences toLowerCase_ascii sampleMenu
    [lit "Soy"; lit "SHELLFISH"; lit "soy"] [lit "Vegetarian"]
  = filterItemsByPreferences toLowerCase_ascii sampleMenu
      [lit "shellfish"; lit "soy"] [lit "vegetarian"; lit "VEGETARIAN"].
Proof.
  apply filter_tags_as_sets; intro t; vm_compute; tauto.
Defined.

Lemma vegan_satisfies_chain_witness :
  In veganOnlyItem
    (filterItemsByPreferences toLowerCase_ascii sampleMenu
       [lit "shellfish"] [lit "Pescetarian"; lit "vegetarian"]).
Proof.
  apply vegan_satisfies_chain.
  - right. right. left. reflexivity.
  - intros (a & b & Ha & Hb & E). destruct Ha as [<- | []].
    destruct Hb as [<- | []]. vm_compute in E. discriminate.
  - discriminate.
  - exists (lit "Vegan"). split; [now left | reflexivity].
  - intros tag [<- | [<- | []]]; [right; right | right; left]; reflexivity.
Defined.

Lemma vegetarian_does_not_satisfy_vegan_witness :
  ~ In vegetarianOnlyItem
      (filterItemsByPreferences toLowerCase_ascii sampleMenu [] [lit "Vegan"]).
Proof.
  apply vegetarian_does_not_satisfy_vegan with (tag := lit "Vegan").
  - intros l [<- | []]. reflexivity.
  - now left.
  - reflexivity.
Defined.

Lemma tags_grow_with_query_witness :
  occursIn (toLowerCase_ascii (lit "Tacos")) (toLowerCase_ascii (lit "Spicy tacos please"))
  /\ (In (lit "mexican") (cuisines (parseWithKeywords toLowerCase_ascii (lit "Tacos"))) ->
      In (lit "mexican")
         (cuisines (parseWithKeywords toLowerCase_ascii (lit "Spicy tacos please")))).
Proof.
  assert (O : occursIn (toLowerCase_ascii (lit "Tacos"))
                       (toLowerCase_ascii (lit "Spicy tacos please"))).
  { exists (lit "spicy "), (lit " please"). reflexivity. }
  split; [exact O|].
  exact (proj1 (tags_grow_with_query toLowerCase_ascii (lit "Tacos")
                  (lit "Spicy tacos please") (lit "mexican") O)).
Defined.

Lemma ingredients_are_query_words_witness :
  In (lit "shrimp")
     (taste_ingredients (parseWithKeywords toLowerCase_ascii (lit "Grilled  Shrimp")))
  /\ occursIn (lit "shrimp") (toLowerCase_ascii (lit "Grilled  Shrimp")).
Proof.
  assert (I : In (lit "shrimp")
                 (taste_ingredients
                    (parseWithKeywords toLowerCase_ascii (lit "Grilled  Shrimp")))).
  { vm_compute. left. reflexivity. }
  split; [exact I|].
  exact (proj1 (ingredients_are_query_words toLowerCase_ascii (lit "Grilled  Shrimp")
                  (lit "shrimp") I)).
Defined.

Lemma allergen_in_text_zeroes_score_witness :
  scoreMealAgainstTaste toLowerCase_ascii soyNoodles
    (keywordStrategy (lit "noodles with shrimp"))
    {| allergies := Some [lit "Soy"]; dietaryRestrictions := None |} = 0%Z.
Proof.
  apply allergen_in_text_zeroes_score with (allergen := lit "Soy").
  - now left.
  - apply includes_occursIn. vm_compute. reflexivity.
  - vm_compute. discriminate.
Defined.

Lemma unmet_dietary_text_zeroes_score_witness :
  In vegetarianOnlyItem
     (filterItemsByPreferences toLowerCase_ascii sampleMenu [] [lit "vegetarian"])
  /\ scoreMealAgainstTaste toLowerCase_ascii vegetarianOnlyItem
       (keywordStrategy (lit "grilled vegetables"))
       {| allergies := Some []; dietaryRestrictions := Some [lit "vegetarian"] |} = 0%Z.
Proof.
  split; [left; reflexivity|].
  apply unmet_dietary_text_zeroes_score.
  - discriminate.
  - intros d [<- | []] H. apply includes_occursIn in H. vm_compute in H. discriminate.
  - vm_compute. discriminate.
Defined.

Lemma health_goal_identity_irrelevant_witness :
  healthGoals (keywordStrategy (lit "healthy tacos"))
  <> healthGoals (keywordStrategy (lit "protein tacos"))
  /\ scoreMealAgainstTaste toLowerCase_ascii spicyVeggieTaco
       (keywordStrategy (lit "healthy tacos")) noPreferences
     = scoreMealAgainstTaste toLowerCase_ascii spicyVeggieTaco
         (keywordStrategy (lit "protein tacos")) noPreferences.
Proof.
  split; [vm_compute; discriminate|].
  apply health_goal_identity_irrelevant; vm_compute; try reflexivity; discriminate.
Defined.

Lemma reasons_cut_after_three_witness :
  generateMatchReasons toLowerCase_ascii shrimpTacos
    (keywordStrategy (lit "grilled mexican tacos shrimp"))
  = [lit "Matches cuisine preference"; lit "Matches food type";
     lit "Contains requested ingredients"].
Proof.
  apply reasons_cut_after_three; apply someKeyword_hit; vm_compute; reflexivity.
Defined.

Lemma dietary_reason_shown_or_cut_witness :
  last (generateMatchReasons toLowerCase_ascii shrimpTacos (keywordStrategy (lit "fish tacos")))
       []
  = lit "pescetarian option".
Proof.
  refine (proj1 (proj2 (dietary_reason_shown_or_cut toLowerCase_ascii shrimpTacos
                          (keywordStrategy (lit "fish tacos")) [lit "pescetarian"]
                          eq_refl _)) _).
  - discriminate.
  - vm_compute. repeat constructor.
Defined.


Lemma curated_meals_invariants_witness :
  let m := scoredMealOf toLowerCase_ascii (keywordStrategy (lit "shrimp tacos"))
             [lit "soy"] [] shrimpTacos in
  In m (curateMeals toLowerCase_ascii sampleMenu (keywordStrategy (lit "shrimp tacos"))
          [lit "soy"] [])
  /\ (0 <= score m)%Z
  /\ (List.length (matchReasons m) <= 3)%nat.
Proof.
  intro m.
  assert (Hm : In m (curateMeals toLowerCase_ascii sampleMenu
                       (keywordStrategy (lit "shrimp tacos")) [lit "soy"] [])).
  { vm_compute. left. reflexivity. }
  split; [exact Hm|].
  exact (proj2 (proj2 (proj2 (curated_meals_invariants toLowerCase_ascii sampleMenu
                                (keywordStrategy (lit "shrimp tacos")) [lit "soy"] [])) m Hm)).
Defined.

Lemma shown_meals_are_the_best_witness :
  exists others,
    Permutation
      (curateMeals toLowerCase_ascii
         (sampleMenu ++ sampleMenu) (keywordStrategy (lit "shrimp tacos")) [] [] ++ others)
      (List.map (scoredMealOf toLowerCase_ascii (keywordStrategy (lit "shrimp tacos")) [] [])
         (filterItemsByPreferences toLowerCase_ascii (sampleMenu ++ sampleMenu) [] []))
    /\ forall m o,
         In m (curateMeals toLowerCase_ascii
                 (sampleMenu ++ sampleMenu) (keywordStrategy (lit "shrimp tacos")) [] []) ->
         In o others -> (score o <= score m)%Z.
Proof.
  exact (shown_meals_are_the_best toLowerCase_ascii (sampleMenu ++ sampleMenu)
           (keywordStrategy (lit "shrimp tacos")) [] []).
Defined.

Lemma best_meal_leads_witness :
  exists top rest,
    meals (restaurantWithMeals toLowerCase_ascii (keywordStrategy (lit "shrimp tacos"))
             [lit "soy"] [] cantina (Some sampleMenu)) = top :: rest
    /\ (score (scoredMealOf toLowerCase_ascii (keywordStrategy (lit "shrimp tacos"))
                 [lit "soy"] [] shrimpTacos)
        <= score top)%Z.
Proof.
  apply best_meal_leads. apply filter_In. split.
  - right. right. right. left. reflexivity.
  - vm_compute. reflexivity.
Defined.

Lemma well_rated_restaurant_listed_witness :
  In (restaurantWithMeals toLowerCase_ascii (keywordStrategy (lit "sushi")) [] []
        cantina None)
     (searchByTaste toLowerCase_ascii [bistro; cantina] (fun _ => None)
        (keywordStrategy (lit "sushi")) [] []).
Proof.
  refine (proj2 (well_rated_restaurant_listed toLowerCase_ascii [bistro; cantina]
                   (fun _ => None) (keywordStrategy (lit "sushi")) [] [] cantina (9 # 2)
                   _ eq_refl _)).
  - right. left. reflexivity.
  - reflexivity.
Defined.

Lemma dedup_keys_distinct_and_complete_witness :
  In (lit "Corner Bistro")
     (deduplicateRestaurants toLowerCase_ascii
        [lit "Casa Roma"; lit "Corner Bistro"; lit "CASA ROMA"])
  /\ In (lit "Corner Bistro") [lit "Casa Roma"; lit "Corner Bistro"; lit "CASA ROMA"].
Proof.
  assert (H : In (lit "Corner Bistro")
                 (deduplicateRestaurants toLowerCase_ascii
                    [lit "Casa Roma"; lit "Corner Bistro"; lit "CASA ROMA"])).
  { vm_compute. right. left. reflexivity. }
  split; [exact H|].
  exact (proj1 (proj2
           (dedup_keys_distinct_and_complete jsstring toLowerCase_ascii
              [lit "Casa Roma"; lit "Corner Bistro"; lit "CASA ROMA"])) _ H).
Defined.

Lemma match_spans_first_to_last_witness :
  jsonMatch (lit "Here {a:1} or {b:2} done") = Some (lit "{a:1} or {b:2}")
  /\ exists before body after,
       lit "Here {a:1} or {b:2} done" = before ++ lit "{a:1} or {b:2}" ++ after
       /\ lit "{a:1} or {b:2}" = 123%N :: body ++ [125%N]
       /\ ~ In 123%N before
       /\ ~ In 125%N after.
Proof.
  assert (M : matchDelimited 123 125 (lit "Here {a:1} or {b:2} done")
              = Some (lit "{a:1} or {b:2}")) by reflexivity.
  split; [exact M|].
  exact (match_spans_first_to_last 123 125 _ _ M).
Defined.
